(** * vl6180x_multi: address reallocation of several VL6180X sensors

    Shallow embedding of [vl6180x_multi/vl6180x_multi.py] (class
    [MultiSensor]) and the properties of its power sequencing.

    The GPIO library, the I2C bus and the sensor driver are external to
    the repository: they are an interface ([Hardware]) whose calls may
    succeed or raise a Python exception and may change the state of the
    world.  The code is a program in a small monad that threads the world,
    propagates exceptions the way Python does and records every external
    call together with its outcome.  Of the prints, which only write to
    standard output, the log keeps those that raise. *)

From Stdlib Require Import ZArith List Bool Lia.
Import ListNotations.
Local Open Scope Z_scope.

(** ** Python values the code manipulates *)

(** The exception classes the code raises, catches or lets through.  All
    of them derive from [Exception]. *)
Inductive exn : Type :=
| AssertionError
| IndexError
| OSError
| RuntimeError
| ValueError.

Definition exn_eqb (a b : exn) : bool :=
  match a, b with
  | AssertionError, AssertionError
  | IndexError, IndexError
  | OSError, OSError
  | RuntimeError, RuntimeError
  | ValueError, ValueError => true
  | _, _ => false
  end.

Inductive result (A : Type) : Type :=
| Ok (a : A)
| Raise (e : exn).
Arguments Ok {A} a.
Arguments Raise {A} e.

Definition is_ok {A} (r : result A) : bool :=
  match r with Ok _ => true | Raise _ => false end.

(** [GPIO.LOW] and [GPIO.HIGH]. *)
Inductive level : Type := LOW | HIGH.

(** RPi.GPIO's numbering schemes, [GPIO.BOARD = 10] and [GPIO.BCM = 11]. *)
Definition GPIO_BOARD : Z := 10.
Definition GPIO_BCM : Z := 11.

(** Register for changing the device bus address. *)
Definition SUBORDINATE_ADDR_REG : Z := 0x212.

(** An [adafruit_vl6180x.VL6180X] object: the driver bound to a bus
    address, with the calibration offset it was built with (0 when the
    constructor is called without [offset]). *)
Record VL6180X : Type := mkVL6180X { address : Z; offset : Z }.

(** The instance: [self.sensors]. *)
Record MultiSensor : Type := mkMultiSensor { sensors : list VL6180X }.

(** ** External calls and their log *)

Inductive event : Type :=
| E_setmode (mode : Z) (r : result unit)
| E_setup (channels : list Z) (r : result unit)
| E_output (channels : list Z) (lvl : level) (r : result unit)
| E_I2C (r : result unit)
| E_scan (r : result (list Z))
| E_sleep
| E_VL6180X (addr off : Z) (r : result unit)
| E_write_8 (dev reg val : Z) (r : result unit)
| E_range (s : VL6180X) (r : result Z)
| E_range_status (s : VL6180X) (r : result Z)
| E_read_lux (s : VL6180X) (gain : Z) (ok : bool)
| E_print (r : result unit).

Record Hardware : Type := mkHardware {
  World : Type;
  Lux : Type;
  hw_setmode : Z -> World -> result unit * World;
  hw_setup : list Z -> World -> result unit * World;
  hw_output : list Z -> level -> World -> result unit * World;
  hw_I2C : World -> result unit * World;
  hw_scan : World -> result (list Z) * World;
  hw_sleep : World -> World;
  hw_VL6180X : Z -> Z -> World -> result unit * World;
  hw_write_8 : Z -> Z -> Z -> World -> result unit * World;
  hw_range : VL6180X -> World -> result Z * World;
  hw_range_status : VL6180X -> World -> result Z * World;
  hw_read_lux : VL6180X -> Z -> World -> result Lux * World
}.

(** [sys.int_max_str_digits]; the least absolute value with more digits,
    10^4300, computed once; and whether [str(n)] raises for an int. *)
Definition int_max_str_digits : Z := 4300.

Definition str_limit : Z := Eval vm_compute in 10 ^ int_max_str_digits.

Definition str_raises (n : Z) : bool := str_limit <=? Z.abs n.
Arguments str_raises : simpl never.

(** ** The monad of the program *)

Section Code.

Variable hw : Hardware.

Definition M (A : Type) : Type :=
  World hw -> result A * World hw * list event.

Definition ret {A} (a : A) : M A := fun w => (Ok a, w, []).

Definition raise {A} (e : exn) : M A := fun w => (Raise e, w, []).

Definition bind {A B} (m : M A) (f : A -> M B) : M B :=
  fun w =>
    match m w with
    | (Ok a, w1, t1) =>
        match f a w1 with
        | (r, w2, t2) => (r, w2, t1 ++ t2)
        end
    | (Raise e, w1, t1) => (Raise e, w1, t1)
    end.

(** [try: m except C1 as e: h1 e except C2 as e: h2 e ...]: a clause is
    the test "is an instance of the class" with its handler; the first
    clause that matches runs, and an exception raised by a handler is not
    caught by the sibling clauses. *)
Definition clause (A : Type) : Type := ((exn -> bool) * (exn -> M A))%type.

Fixpoint select {A} (e : exn) (clauses : list (clause A))
  : option (exn -> M A) :=
  match clauses with
  | [] => None
  | (cls, handler) :: rest => if cls e then Some handler else select e rest
  end.

Definition try_except {A} (m : M A) (clauses : list (clause A)) : M A :=
  fun w =>
    match m w with
    | (Ok a, w1, t1) => (Ok a, w1, t1)
    | (Raise e, w1, t1) =>
        match select e clauses with
        | Some handler =>
            match handler e w1 with
            | (r, w2, t2) => (r, w2, t1 ++ t2)
            end
        | None => (Raise e, w1, t1)
        end
    end.

Notation "x <- m ;; k" := (bind m (fun x => k))
  (at level 61, m at next level, right associativity).
Notation "m ;; k" := (bind m (fun _ => k))
  (at level 61, right associativity).

Definition isinstance_OSError (e : exn) : bool := exn_eqb e OSError.
Definition isinstance_IndexError (e : exn) : bool := exn_eqb e IndexError.
Definition isinstance_Exception (e : exn) : bool := true.

(** [assert cond, msg] *)
Definition assert (cond : bool) : M unit :=
  if cond then ret tt else raise AssertionError.

(** [print(...)] of a text that holds no int written in decimal (an
    exception, addresses in hexadecimal): it writes to standard output
    only; the text is not modelled. *)
Definition print : M unit := ret tt.

(** [print(f"... {n} ...")] for an int [n] written in decimal: the
    conversion of an int to a decimal string raises [ValueError] when the
    int has more than [sys.int_max_str_digits] digits (4300 by default),
    that is from 10^4300 on in absolute value.  (Ints written in
    hexadecimal, as the addresses are, have no such limit.) *)
Definition print_int (n : Z) : M unit :=
  if str_raises n
  then fun w => (Raise ValueError, w, [E_print (Raise ValueError)])
  else print.

(** The external calls, each logged with its outcome. *)
Definition GPIO_setmode (mode : Z) : M unit :=
  fun w => let (r, w') := hw_setmode hw mode w in (r, w', [E_setmode mode r]).

Definition GPIO_setup (channels : list Z) : M unit :=
  fun w =>
    let (r, w') := hw_setup hw channels w in (r, w', [E_setup channels r]).

Definition GPIO_output (channels : list Z) (lvl : level) : M unit :=
  fun w =>
    let (r, w') := hw_output hw channels lvl w in
    (r, w', [E_output channels lvl r]).

Definition busio_I2C : M unit :=
  fun w => let (r, w') := hw_I2C hw w in (r, w', [E_I2C r]).

Definition i2c_scan : M (list Z) :=
  fun w => let (r, w') := hw_scan hw w in (r, w', [E_scan r]).

Definition time_sleep : M unit :=
  fun w => (Ok tt, hw_sleep hw w, [E_sleep]).

Definition new_VL6180X (addr off : Z) : M VL6180X :=
  fun w =>
    let (r, w') := hw_VL6180X hw addr off w in
    (match r with Ok _ => Ok (mkVL6180X addr off) | Raise e => Raise e end,
     w', [E_VL6180X addr off r]).

Definition _write_8 (s : VL6180X) (reg val : Z) : M unit :=
  fun w =>
    let (r, w') := hw_write_8 hw (address s) reg val w in
    (r, w', [E_write_8 (address s) reg val r]).

Definition range (s : VL6180X) : M Z :=
  fun w => let (r, w') := hw_range hw s w in (r, w', [E_range s r]).

Definition range_status (s : VL6180X) : M Z :=
  fun w =>
    let (r, w') := hw_range_status hw s w in (r, w', [E_range_status s r]).

Definition read_lux (s : VL6180X) (gain : Z) : M (Lux hw) :=
  fun w =>
    let (r, w') := hw_read_lux hw s gain w in
    (r, w', [E_read_lux s gain (is_ok r)]).

(** ** Python containers *)

(** [d[k] = v] on a dict kept in insertion order: a key that is present
    keeps its place and takes the new value. *)
Fixpoint dict_set (k v : Z) (d : list (Z * Z)) : list (Z * Z) :=
  match d with
  | [] => [(k, v)]
  | (k', v') :: d' =>
      if k =? k' then (k, v) :: d' else (k', v') :: dict_set k v d'
  end.

(** [x in l] for a list of ints. *)
Definition contains (x : Z) (l : list Z) : bool := existsb (Z.eqb x) l.

(** [{a: c for a, c in zip(i2c_addresses, channels) if a not in busy_addr}] *)
Definition working_address (i2c_addresses channels busy_addr : list Z)
  : list (Z * Z) :=
  fold_left
    (fun d ac => if contains (fst ac) busy_addr then d
                 else dict_set (fst ac) (snd ac) d)
    (combine i2c_addresses channels) [].

(** [l[i]]: indices from [-len(l)] to [len(l) - 1], [IndexError]
    otherwise. *)
Definition getitem {A} (l : list A) (i : Z) : result A :=
  let n := Z.of_nat (length l) in
  let j := if i <? 0 then i + n else i in
  if (j <? 0) || (n <=? j) then Raise IndexError
  else match nth_error l (Z.to_nat j) with
       | Some x => Ok x
       | None => Raise IndexError
       end.

Definition lift {A} (r : result A) : M A := fun w => (r, w, []).

(** [print(f"... {idx} ...")] in the handlers of the queries on the list
    [l].  An index at which the list can be read is at most
    [sys.maxsize], the largest length of a list, and so far below the
    limit of the conversion: only an index outside the list can make the
    print raise. *)
Definition print_index {A} (l : list A) (idx : Z) : M unit :=
  if is_ok (getitem l idx) then print else print_int idx.

(** ** [MultiSensor._realloc_addr] *)

(** One turn of the first loop: power the sensor up, wait, and move it
    from the default address to its own.  The first print writes the
    address in hexadecimal and the channel in decimal. *)
Definition enable_one (default_i2c_address : Z) (item : Z * Z) : M unit :=
  let (i2c_address, channel) := item in
  print_int channel ;;
  GPIO_output [channel] HIGH ;;
  time_sleep ;;
  try_except
    (temp <- new_VL6180X default_i2c_address 0 ;;
     _write_8 temp SUBORDINATE_ADDR_REG i2c_address)
    [(isinstance_OSError, fun _ => print)].

Fixpoint enable_loop (default_i2c_address : Z) (items : list (Z * Z))
  : M unit :=
  match items with
  | [] => ret tt
  | item :: rest =>
      enable_one default_i2c_address item ;;
      enable_loop default_i2c_address rest
  end.

(** One turn of the second loop: [sensors] is the list built so far. *)
Definition instantiate_one (acc : list VL6180X) (ao : Z * Z)
  : M (list VL6180X) :=
  let (i2c_address, off) := ao in
  try_except
    (sensor <- new_VL6180X i2c_address off ;;
     ret (acc ++ [sensor]))
    [(isinstance_OSError, fun _ => print ;; ret acc)].

Fixpoint instantiate_loop (acc : list VL6180X) (l : list (Z * Z))
  : M (list VL6180X) :=
  match l with
  | [] => ret acc
  | ao :: rest =>
      acc' <- instantiate_one acc ao ;;
      instantiate_loop acc' rest
  end.

Definition _realloc_addr (channels i2c_addresses offsets : list Z)
    (default_i2c_address : Z) : M (list VL6180X) :=
  busio_I2C ;;
  busy_addr <- i2c_scan ;;
  print ;;
  enable_loop default_i2c_address
    (working_address i2c_addresses channels busy_addr) ;;
  instantiate_loop [] (combine i2c_addresses offsets).

(** ** [MultiSensor.__init__] *)

Definition in_range_0_127 (a : Z) : bool := (0 <=? a) && (a <=? 127).

(** [offsets] is [None] (the default of the parameter) or a list. *)
Definition isinstance_list (offsets : option (list Z)) : bool :=
  match offsets with Some _ => true | None => false end.

Definition __init__ (ce_gpios new_i2c_addresses : list Z)
    (offsets : option (list Z)) (mode_gpio default_i2c_address : Z)
  : M MultiSensor :=
  (* ce_gpios and new_i2c_addresses are lists by their types *)
  assert (Nat.eqb (length ce_gpios) (length new_i2c_addresses)) ;;
  assert (isinstance_list offsets) ;;
  let offsets :=
    match offsets with
    | None => repeat 0 (length ce_gpios)
    | Some l => l
    end in
  assert (Nat.eqb (length ce_gpios) (length offsets)) ;;
  assert (forallb in_range_0_127 new_i2c_addresses) ;;
  assert ((mode_gpio =? GPIO_BCM) || (mode_gpio =? GPIO_BOARD)) ;;
  (* default_i2c_address is an int by its type *)
  assert (in_range_0_127 default_i2c_address) ;;
  try_except
    (GPIO_setmode mode_gpio ;;
     GPIO_setup ce_gpios ;;
     GPIO_output ce_gpios LOW ;;
     l <- _realloc_addr ce_gpios new_i2c_addresses offsets
            default_i2c_address ;;
     ret (mkMultiSensor l))
    [(isinstance_Exception, fun e => print ;; raise e)].

(** ** The query methods

    A Python [None] is [None], a value [v] is [Some v].  Both handlers
    print the index in decimal. *)

Definition get_range (self : MultiSensor) (idx_sensor : Z) : M (option Z) :=
  try_except
    (s <- lift (getitem (sensors self) idx_sensor) ;;
     v <- range s ;;
     ret (Some v))
    [(isinstance_IndexError,
      fun _ => print_index (sensors self) idx_sensor ;; ret None);
     (isinstance_Exception,
      fun _ => print_index (sensors self) idx_sensor ;; ret None)].

Definition get_lux (self : MultiSensor) (idx_sensor gain : Z)
  : M (option (Lux hw)) :=
  try_except
    (s <- lift (getitem (sensors self) idx_sensor) ;;
     v <- read_lux s gain ;;
     ret (Some v))
    [(isinstance_IndexError,
      fun _ => print_index (sensors self) idx_sensor ;; ret None);
     (isinstance_Exception,
      fun _ => print_index (sensors self) idx_sensor ;; ret None)].

Definition get_range_status (self : MultiSensor) (idx_sensor : Z)
  : M (option Z) :=
  try_except
    (s <- lift (getitem (sensors self) idx_sensor) ;;
     v <- range_status s ;;
     ret (Some v))
    [(isinstance_IndexError,
      fun _ => print_index (sensors self) idx_sensor ;; ret None);
     (isinstance_Exception,
      fun _ => print_index (sensors self) idx_sensor ;; ret None)].

End Code.

Arguments M hw A : clear implicits.

(** ** A test bench

    A hardware whose answers are fixed by a script: what the scan
    reports, which addresses answer when a driver is opened, which
    address writes go through, what the sensors read.  Its world counts
    the calls made. *)
Record script : Type := mkScript {
  scan_answer : result (list Z);
  open_answer : Z -> result unit;
  write_answer : Z -> result unit;
  range_answer : Z -> result Z
}.

Definition bench (s : script) : Hardware :=
  {| World := nat;
     Lux := Z;
     hw_setmode := fun _ n => (Ok tt, S n);
     hw_setup := fun _ n => (Ok tt, S n);
     hw_output := fun _ _ n => (Ok tt, S n);
     hw_I2C := fun n => (Ok tt, S n);
     hw_scan := fun n => (scan_answer s, S n);
     hw_sleep := fun n => n;
     hw_VL6180X := fun addr _ n => (open_answer s addr, S n);
     hw_write_8 := fun _ _ val n => (write_answer s val, S n);
     hw_range := fun h n => (range_answer s (address h), S n);
     hw_range_status := fun h n => (range_answer s (address h), S n);
     hw_read_lux := fun h _ n => (range_answer s (address h), S n) |}.

(** Every call succeeds: nothing answers the scan, every sensor answers
    when opened and reads 42. *)
Definition all_fine : script :=
  mkScript (Ok []) (fun _ => Ok tt) (fun _ => Ok tt) (fun _ => Ok 42).

(** ** Reading the log *)

(** The log of one turn of the first loop for the pending entry
    [(a, c)], with the outcome of the turn: the turn goes on to the next
    sensor ([Ok]) when the address write went through and also when the
    driver or the write raised [OSError]; any other exception leaves the
    loop, and so does the first print when the number of the line is too
    long to be written in decimal. *)
Inductive turn_trace (d a c : Z) : result unit -> list event -> Prop :=
| turn_output_raises e :
    turn_trace d a c (Raise e) [E_output [c] HIGH (Raise e)]
| turn_open_oserror :
    turn_trace d a c (Ok tt)
      [E_output [c] HIGH (Ok tt); E_sleep; E_VL6180X d 0 (Raise OSError)]
| turn_open_raises e :
    e <> OSError ->
    turn_trace d a c (Raise e)
      [E_output [c] HIGH (Ok tt); E_sleep; E_VL6180X d 0 (Raise e)]
| turn_write_ok :
    turn_trace d a c (Ok tt)
      [E_output [c] HIGH (Ok tt); E_sleep; E_VL6180X d 0 (Ok tt);
       E_write_8 d SUBORDINATE_ADDR_REG a (Ok tt)]
| turn_write_oserror :
    turn_trace d a c (Ok tt)
      [E_output [c] HIGH (Ok tt); E_sleep; E_VL6180X d 0 (Ok tt);
       E_write_8 d SUBORDINATE_ADDR_REG a (Raise OSError)]
| turn_write_raises e :
    e <> OSError ->
    turn_trace d a c (Raise e)
      [E_output [c] HIGH (Ok tt); E_sleep; E_VL6180X d 0 (Ok tt);
       E_write_8 d SUBORDINATE_ADDR_REG a (Raise e)]
| turn_print_raises :
    str_raises c = true ->
    turn_trace d a c (Raise ValueError) [E_print (Raise ValueError)].

(** The log of the first loop over the pending entries. *)
Inductive loop_trace (d : Z)
  : list (Z * Z) -> result unit -> list event -> Prop :=
| loop_done : loop_trace d [] (Ok tt) []
| loop_leaves a c rest e t :
    turn_trace d a c (Raise e) t ->
    loop_trace d ((a, c) :: rest) (Raise e) t
| loop_next a c rest t1 r t2 :
    turn_trace d a c (Ok tt) t1 ->
    loop_trace d rest r t2 ->
    loop_trace d ((a, c) :: rest) r (t1 ++ t2).

(** The log of the second loop over the (address, offset) pairs, from the
    list [acc] of sensors built so far. *)
Inductive inst_trace
  : list (Z * Z) -> list VL6180X -> result (list VL6180X) -> list event
    -> Prop :=
| inst_done acc : inst_trace [] acc (Ok acc) []
| inst_opened a o rest acc r t :
    inst_trace rest (acc ++ [mkVL6180X a o]) r t ->
    inst_trace ((a, o) :: rest) acc r (E_VL6180X a o (Ok tt) :: t)
| inst_skipped a o rest acc r t :
    inst_trace rest acc r t ->
    inst_trace ((a, o) :: rest) acc r (E_VL6180X a o (Raise OSError) :: t)
| inst_leaves a o rest acc e :
    e <> OSError ->
    inst_trace ((a, o) :: rest) acc (Raise e) [E_VL6180X a o (Raise e)].

(** What is done before the first loop when nothing raises. *)
Definition prelude (mode : Z) (ce : list Z) (busy : list Z) : list event :=
  [E_setmode mode (Ok tt); E_setup ce (Ok tt); E_output ce LOW (Ok tt);
   E_I2C (Ok tt); E_scan (Ok busy)].

Definition to_self (r : result (list VL6180X)) : result MultiSensor :=
  match r with Ok l => Ok (mkMultiSensor l) | Raise e => Raise e end.

(** The log of a call of the constructor whose arguments pass the
    assertions. *)
Inductive run_trace (ce addrs offs : list Z) (mode d : Z)
  : result MultiSensor -> list event -> Prop :=
| run_setmode_raises e :
    run_trace ce addrs offs mode d (Raise e) [E_setmode mode (Raise e)]
| run_setup_raises e :
    run_trace ce addrs offs mode d (Raise e)
      [E_setmode mode (Ok tt); E_setup ce (Raise e)]
| run_output_raises e :
    run_trace ce addrs offs mode d (Raise e)
      [E_setmode mode (Ok tt); E_setup ce (Ok tt);
       E_output ce LOW (Raise e)]
| run_I2C_raises e :
    run_trace ce addrs offs mode d (Raise e)
      [E_setmode mode (Ok tt); E_setup ce (Ok tt); E_output ce LOW (Ok tt);
       E_I2C (Raise e)]
| run_scan_raises e :
    run_trace ce addrs offs mode d (Raise e)
      [E_setmode mode (Ok tt); E_setup ce (Ok tt); E_output ce LOW (Ok tt);
       E_I2C (Ok tt); E_scan (Raise e)]
| run_loop_leaves busy e tp :
    loop_trace d (working_address addrs ce busy) (Raise e) tp ->
    run_trace ce addrs offs mode d (Raise e) (prelude mode ce busy ++ tp)
| run_sequenced busy tp r tf :
    loop_trace d (working_address addrs ce busy) (Ok tt) tp ->
    inst_trace (combine addrs offs) [] r tf ->
    run_trace ce addrs offs mode d (to_self r)
      (prelude mode ce busy ++ tp ++ tf).

(** The assertions of the constructor on a list of offsets. *)
Definition config_ok (ce addrs offs : list Z) (mode d : Z) : bool :=
  Nat.eqb (length ce) (length addrs)
  && Nat.eqb (length ce) (length offs)
  && forallb in_range_0_127 addrs
  && ((mode =? GPIO_BCM) || (mode =? GPIO_BOARD))
  && in_range_0_127 d.

(** *** Enable lines and addresses along a log *)

(** The level a successful [GPIO.output] gives line [c]. *)
Definition drives (c : Z) (e : event) : option level :=
  match e with
  | E_output channels lvl (Ok _) =>
      if contains c channels then Some lvl else None
  | _ => None
  end.

(** Whether line [c] is high after the log [t], from the level [b]. *)
Fixpoint asserted_from (b : bool) (t : list event) (c : Z) : bool :=
  match t with
  | [] => b
  | e :: t' =>
      asserted_from
        (match drives c e with
         | Some HIGH => true
         | Some LOW => false
         | None => b
         end) t' c
  end.

(** A line is asserted when the last successful output on it drove it
    high. *)
Definition asserted (t : list event) (c : Z) : bool :=
  asserted_from false t c.

Definition writes_address (a : Z) (e : event) : bool :=
  match e with
  | E_write_8 _ reg val (Ok _) => (reg =? SUBORDINATE_ADDR_REG) && (val =? a)
  | _ => false
  end.

(** The sensor meant for address [a] has been reassigned when a write of
    [a] to the address register went through. *)
Definition reassigned (t : list event) (a : Z) : bool :=
  existsb (writes_address a) t.

(** The device (address [a], enable line [c]) is out of reset and not yet
    at its address after the log [t]: its address was not found by the
    scan, its line is asserted and no write of its address went through. *)
Definition pre_reassignment (busy : list Z) (t : list event) (dev : Z * Z)
  : bool :=
  negb (contains (fst dev) busy)
  && asserted t (snd dev)
  && negb (reassigned t (fst dev)).

(** The (address, offset) pairs of the drivers opened in a log. *)
Fixpoint opened (t : list event) : list (Z * Z) :=
  match t with
  | [] => []
  | E_VL6180X a o _ :: t' => (a, o) :: opened t'
  | _ :: t' => opened t'
  end.

(** Those of them that were opened successfully. *)
Fixpoint opened_ok (t : list event) : list (Z * Z) :=
  match t with
  | [] => []
  | E_VL6180X a o (Ok _) :: t' => (a, o) :: opened_ok t'
  | _ :: t' => opened_ok t'
  end.

Definition raises_high (c : Z) (e : event) : bool :=
  match e with
  | E_output channels HIGH _ => contains c channels
  | _ => false
  end.

Definition is_address_write (a : Z) (e : event) : bool :=
  match e with
  | E_write_8 _ reg val _ => (reg =? SUBORDINATE_ADDR_REG) && (val =? a)
  | _ => false
  end.

(** What may go wrong without stopping the sequencing: a driver that
    cannot be opened or a register write that fails, with [OSError].  A
    call of another kind that raises, a print included, is not
    recovered. *)
Definition recovered (e : event) : bool :=
  match e with
  | E_setmode _ r | E_setup _ r | E_output _ _ r | E_I2C r
  | E_print r => is_ok r
  | E_scan r => is_ok r
  | E_VL6180X _ _ (Raise e) | E_write_8 _ _ _ (Raise e) =>
      isinstance_OSError e
  | _ => true
  end.

(** [l1] keeps some elements of [l2], in their order. *)
Inductive Subseq {A : Type} : list A -> list A -> Prop :=
| Subseq_nil : Subseq [] []
| Subseq_skip x l1 l2 : Subseq l1 l2 -> Subseq l1 (x :: l2)
| Subseq_keep x l1 l2 : Subseq l1 l2 -> Subseq (x :: l1) (x :: l2).

Definition sensor_of (ao : Z * Z) : VL6180X := mkVL6180X (fst ao) (snd ao).

(** What the first loop over [items] may log, and the second loop. *)
Definition loop_event (d : Z) (items : list (Z * Z)) (e : event) : Prop :=
  e = E_sleep
  \/ (exists r, e = E_VL6180X d 0 r)
  \/ (exists a c r,
        In (a, c) items
        /\ (e = E_output [c] HIGH r
            \/ e = E_write_8 d SUBORDINATE_ADDR_REG a r
            \/ e = E_print r)).

Definition inst_event (l : list (Z * Z)) (e : event) : Prop :=
  exists a o r, In (a, o) l /\ e = E_VL6180X a o r.

(** A reassignment step that fails: a register write that raises, or a
    driver opened at the default address [d] (without offset) that
    raises. *)
Definition reassignment_fails (d : Z) (e : event) : bool :=
  match e with
  | E_write_8 _ _ _ (Raise _) => true
  | E_VL6180X a o (Raise _) => (a =? d) && (o =? 0)
  | _ => false
  end.

(** Out of reset and not reassigned by this call. *)
Definition exposed (t : list event) (dev : Z * Z) : bool :=
  asserted t (snd dev) && negb (reassigned t (fst dev)).

(** No device of [devs] is exposed after [t]. *)
Definition quiet (devs : list (Z * Z)) (t : list event) : Prop :=
  forall dev, In dev devs -> exposed t dev = false.

(** At most one device of [devs] is exposed after [t]. *)
Definition at_most_one_exposed (devs : list (Z * Z)) (t : list event)
  : Prop :=
  forall dev1 dev2,
    In dev1 devs -> In dev2 devs ->
    exposed t dev1 = true -> exposed t dev2 = true -> dev1 = dev2.

(** *** More ways to read a log *)

(** The exception a call made by the constructor raised, if it raised. *)
Definition raised (e : event) : option exn :=
  match e with
  | E_setmode _ (Raise x) | E_setup _ (Raise x) | E_output _ _ (Raise x)
  | E_I2C (Raise x) | E_scan (Raise x) | E_VL6180X _ _ (Raise x)
  | E_write_8 _ _ _ (Raise x) | E_print (Raise x) => Some x
  | _ => None
  end.

(** The calls that act on a sensor: a line driven high, a driver opened,
    a register written. *)
Definition acts_on_sensor (e : event) : bool :=
  match e with
  | E_output _ HIGH _ | E_VL6180X _ _ _ | E_write_8 _ _ _ _ => true
  | _ => false
  end.

(** The calls of the two loops: one line driven high, a sleep, a driver
    opened, the address register written (and a print that raised). *)
Definition sequencing_call (e : event) : bool :=
  match e with
  | E_output [_] HIGH _ | E_sleep | E_VL6180X _ _ _ | E_print _ => true
  | E_write_8 _ reg _ _ => reg =? SUBORDINATE_ADDR_REG
  | _ => false
  end.

(** The entry's address was not reported by the scan. *)
Definition is_pending (busy : list Z) (ac : Z * Z) : bool :=
  negb (contains (fst ac) busy).

(** The log [t] ends with a call that raised [x] and is not recovered,
    and every failure before it is a recovered one. *)
Definition stops_at (x : exn) (t : list event) : Prop :=
  exists t' ev,
    t = t' ++ [ev]
    /\ raised ev = Some x
    /\ recovered ev = false
    /\ forallb recovered t' = true.

(** The elements of [l] that are not in [seen], each once, in the order
    in which they first occur. *)
Fixpoint first_occurrences (seen l : list Z) : list Z :=
  match l with
  | [] => []
  | x :: l' =>
      if contains x seen then first_occurrences seen l'
      else x :: first_occurrences (x :: seen) l'
  end.

(** The lines driven high along a log, in order. *)
Fixpoint lines_raised (t : list event) : list Z :=
  match t with
  | [] => []
  | E_output channels HIGH (Ok _) :: t' => channels ++ lines_raised t'
  | _ :: t' => lines_raised t'
  end.

(** Every line driven high is followed at once by a sleep and then by the
    opening of a driver at the default address [d], without offset. *)
Fixpoint settles (d : Z) (t : list event) : bool :=
  match t with
  | [] => true
  | E_output _ HIGH (Ok _) :: t' =>
      match t' with
      | E_sleep :: E_VL6180X a o _ :: _ =>
          (a =? d) && (o =? 0) && settles d t'
      | _ => false
      end
  | _ :: t' => settles d t'
  end.

(** The log of the call with three sensors when every call succeeds. *)
Definition all_fine_log : list event :=
  prelude GPIO_BCM [10; 9; 11] []
  ++ [E_output [10] HIGH (Ok tt); E_sleep; E_VL6180X 0x29 0 (Ok tt);
      E_write_8 0x29 SUBORDINATE_ADDR_REG 0x30 (Ok tt);
      E_output [9] HIGH (Ok tt); E_sleep; E_VL6180X 0x29 0 (Ok tt);
      E_write_8 0x29 SUBORDINATE_ADDR_REG 0x31 (Ok tt);
      E_output [11] HIGH (Ok tt); E_sleep; E_VL6180X 0x29 0 (Ok tt);
      E_write_8 0x29 SUBORDINATE_ADDR_REG 0x32 (Ok tt)]
  ++ [E_VL6180X 0x30 100 (Ok tt); E_VL6180X 0x31 100 (Ok tt);
      E_VL6180X 0x32 100 (Ok tt)].

(** ** Scripts of the test bench and the logs they give *)

(** The sensor at 0x31 does not answer: every driver opened at that
    address raises [OSError]. *)
Definition one_missing : script :=
  mkScript (Ok [])
    (fun a => if a =? 0x31 then Raise OSError else Ok tt)
    (fun _ => Ok tt) (fun _ => Ok 42).

(** The bus scan itself fails. *)
Definition scan_fails : script :=
  mkScript (Raise OSError) (fun _ => Ok tt) (fun _ => Ok tt)
    (fun _ => Ok 42).

(** The write of the first sensor's address fails; every driver opens. *)
Definition first_write_fails : script :=
  mkScript (Ok []) (fun _ => Ok tt)
    (fun v => if v =? 0x30 then Raise OSError else Ok tt)
    (fun _ => Ok 42).

(** The write of the first sensor's address fails, as in
    [first_write_fails]: the log of the call with two sensors. *)
Definition first_write_fails_log : list event :=
  prelude GPIO_BCM [10; 9] []
  ++ [E_output [10] HIGH (Ok tt); E_sleep; E_VL6180X 0x29 0 (Ok tt);
      E_write_8 0x29 SUBORDINATE_ADDR_REG 0x30 (Raise OSError);
      E_output [9] HIGH (Ok tt); E_sleep; E_VL6180X 0x29 0 (Ok tt);
      E_write_8 0x29 SUBORDINATE_ADDR_REG 0x31 (Ok tt)]
  ++ [E_VL6180X 0x30 100 (Ok tt); E_VL6180X 0x31 100 (Ok tt)].

(** The scan answers with addresses 0x30 and 0x31 among others. *)
Definition first_two_live : script :=
  mkScript (Ok [0x30; 0x31]) (fun _ => Ok tt) (fun _ => Ok tt)
    (fun _ => Ok 42).

(** The log of the call with three sensors on that hardware. *)
Definition first_two_live_log : list event :=
  prelude GPIO_BCM [10; 9; 11] [0x30; 0x31]
  ++ [E_output [11] HIGH (Ok tt); E_sleep; E_VL6180X 0x29 0 (Ok tt);
      E_write_8 0x29 SUBORDINATE_ADDR_REG 0x32 (Ok tt)]
  ++ [E_VL6180X 0x30 100 (Ok tt); E_VL6180X 0x31 100 (Ok tt);
      E_VL6180X 0x32 100 (Ok tt)].

(** Two entries on the same enable line; the scan reports the address of
    the first. *)
Definition first_live : script :=
  mkScript (Ok [0x30]) (fun _ => Ok tt) (fun _ => Ok tt) (fun _ => Ok 42).

(** Two sensors are given the same address 0x30. *)
Definition shared_address_log : list event :=
  prelude GPIO_BCM [10; 9; 11] []
  ++ [E_output [9] HIGH (Ok tt); E_sleep; E_VL6180X 0x29 0 (Ok tt);
      E_write_8 0x29 SUBORDINATE_ADDR_REG 0x30 (Ok tt);
      E_output [11] HIGH (Ok tt); E_sleep; E_VL6180X 0x29 0 (Ok tt);
      E_write_8 0x29 SUBORDINATE_ADDR_REG 0x32 (Ok tt)]
  ++ [E_VL6180X 0x30 100 (Ok tt); E_VL6180X 0x30 101 (Ok tt);
      E_VL6180X 0x32 102 (Ok tt)].

(** No driver can be opened: the constructor of the driver raises
    [ValueError], which is not an [OSError]. *)
Definition no_device : script :=
  mkScript (Ok []) (fun _ => Raise ValueError) (fun _ => Ok tt)
    (fun _ => Ok 42).

(** * Properties *)

(** ** The monad *)

Section Runs.

Variable hw : Hardware.

Lemma bind_run {A B} (m : M hw A) (f : A -> M hw B) w r w' t :
  bind hw m f w = (r, w', t) ->
  (exists a w1 t1 t2,
      m w = (Ok a, w1, t1) /\ f a w1 = (r, w', t2) /\ t = t1 ++ t2)
  \/ (exists e, m w = (Raise e, w', t) /\ r = Raise e).
Proof.
  unfold bind. destruct (m w) as [[[a | e] w1] t1].
  - destruct (f a w1) as [[r2 w2] t2] eqn:Hf. intros H.
    injection H as <- <- <-. left. exists a, w1, t1, t2. auto.
  - intros H. injection H as <- <- <-. right. exists e. auto.
Qed.

Lemma assert_true {A} (k : M hw A) w :
  bind hw (assert hw true) (fun _ => k) w = k w.
Proof.
  unfold bind, assert, ret. destruct (k w) as [[r w2] t2]. reflexivity.
Qed.

Lemma assert_false {A} (k : M hw A) w :
  bind hw (assert hw false) (fun _ => k) w = (Raise AssertionError, w, []).
Proof. reflexivity. Qed.

(** ** The logs of the two loops *)

Lemma enable_one_trace d a c w r w' t :
  enable_one hw d (a, c) w = (r, w', t) -> turn_trace d a c r t.
Proof.
  unfold enable_one, bind, try_except, print_int, print, ret, GPIO_output,
    time_sleep, new_VL6180X, _write_8.
  destruct (str_raises c) eqn:Hs; cbn;
    [intros H; injection H as <- <- <-; apply turn_print_raises, Hs |].
  destruct (hw_output hw [c] HIGH w) as [[[] | e1] w1]; cbn.
  - destruct (hw_VL6180X hw d 0 (hw_sleep hw w1)) as [[[] | e2] w2]; cbn.
    + destruct (hw_write_8 hw d SUBORDINATE_ADDR_REG a w2)
        as [[[] | e3] w3]; cbn.
      * intros H. injection H as <- <- <-. apply turn_write_ok.
      * destruct e3; cbn; intros H; injection H as <- <- <-;
          solve [ apply turn_write_oserror
                | apply turn_write_raises; discriminate ].
    + destruct e2; cbn; intros H; injection H as <- <- <-;
        solve [ apply turn_open_oserror
              | apply turn_open_raises; discriminate ].
  - intros H. injection H as <- <- <-. apply turn_output_raises.
Qed.

Lemma enable_loop_trace d items : forall w r w' t,
  enable_loop hw d items w = (r, w', t) -> loop_trace d items r t.
Proof.
  induction items as [| [a c] rest IH]; intros w r w' t H.
  - injection H as <- <- <-. apply loop_done.
  - cbn [enable_loop] in H. apply bind_run in H.
    destruct H as [([] & w1 & t1 & t2 & H1 & H2 & ->) | (e & H1 & ->)].
    + apply loop_next.
      * eapply enable_one_trace; eassumption.
      * eapply IH; eassumption.
    + apply loop_leaves. eapply enable_one_trace; eassumption.
Qed.

Lemma instantiate_loop_trace l : forall acc w r w' t,
  instantiate_loop hw acc l w = (r, w', t) -> inst_trace l acc r t.
Proof.
  induction l as [| [a o] rest IH]; intros acc w r w' t H.
  - injection H as <- <- <-. apply inst_done.
  - cbn [instantiate_loop] in H. apply bind_run in H.
    destruct H as [(acc' & w1 & t1 & t2 & H1 & H2 & ->) | (e & H1 & ->)].
    + apply IH in H2. revert H1.
      unfold instantiate_one, try_except, bind, new_VL6180X, print, ret.
      cbn. destruct (hw_VL6180X hw a o w) as [[[] | e] w2]; cbn.
      * intros H. injection H as <- <- <-. apply inst_opened. exact H2.
      * destruct e; cbn; intros H; try discriminate H.
        injection H as <- <- <-. apply inst_skipped. exact H2.
    + revert H1.
      unfold instantiate_one, try_except, bind, new_VL6180X, print, ret.
      cbn. destruct (hw_VL6180X hw a o w) as [[[] | e'] w2]; cbn.
      * discriminate.
      * destruct e'; cbn; intros H; try discriminate H;
          injection H as <- <- <-; apply inst_leaves; discriminate.
Qed.

(** ** The constructor *)

(** The body of the [try] of the constructor. *)
Lemma sequencing_run ce addrs offs mode d w r w' t :
  try_except hw
    (bind hw (GPIO_setmode hw mode) (fun _ =>
     bind hw (GPIO_setup hw ce) (fun _ =>
     bind hw (GPIO_output hw ce LOW) (fun _ =>
     bind hw (_realloc_addr hw ce addrs offs d) (fun l =>
     ret hw (mkMultiSensor l))))))
    [(isinstance_Exception,
      fun e => bind hw (print hw) (fun _ => raise hw e))] w = (r, w', t) ->
  run_trace ce addrs offs mode d r t.
Proof.
  unfold _realloc_addr, try_except, bind, GPIO_setmode, GPIO_setup,
    GPIO_output, busio_I2C, i2c_scan, print, ret, raise. cbn.
  destruct (hw_setmode hw mode w) as [[[] | e] w1]; cbn;
    [| intros H; injection H as <- <- <-; apply run_setmode_raises].
  destruct (hw_setup hw ce w1) as [[[] | e] w2]; cbn;
    [| intros H; injection H as <- <- <-; apply run_setup_raises].
  destruct (hw_output hw ce LOW w2) as [[[] | e] w3]; cbn;
    [| intros H; injection H as <- <- <-; apply run_output_raises].
  destruct (hw_I2C hw w3) as [[[] | e] w4]; cbn;
    [| intros H; injection H as <- <- <-; apply run_I2C_raises].
  destruct (hw_scan hw w4) as [[busy | e] w5]; cbn;
    [| intros H; injection H as <- <- <-; apply run_scan_raises].
  destruct (enable_loop hw d (working_address addrs ce busy) w5)
    as [[[[] | e] w6] tp] eqn:Hloop; cbn;
    apply enable_loop_trace in Hloop.
  - destruct (instantiate_loop hw [] (combine addrs offs) w6)
      as [[[l | e] w7] tf] eqn:Hinst; cbn;
      apply instantiate_loop_trace in Hinst;
      intros H; injection H as <- <- <-;
      rewrite ?app_nil_r.
    + apply (run_sequenced ce addrs offs mode d busy tp (Ok l) tf);
        assumption.
    + apply (run_sequenced ce addrs offs mode d busy tp (Raise e) tf);
        assumption.
  - intros H. injection H as <- <- <-. rewrite ?app_nil_r.
    apply (run_loop_leaves ce addrs offs mode d busy e tp). assumption.
Qed.

Lemma init_without_offsets ce addrs mode d w :
  __init__ hw ce addrs None mode d w = (Raise AssertionError, w, []).
Proof.
  unfold __init__.
  destruct (Nat.eqb (length ce) (length addrs)).
  - rewrite assert_true. reflexivity.
  - reflexivity.
Qed.

Lemma init_rejected ce addrs offs mode d w :
  config_ok ce addrs offs mode d = false ->
  __init__ hw ce addrs (Some offs) mode d w = (Raise AssertionError, w, []).
Proof.
  unfold config_ok, __init__. cbn [isinstance_list].
  destruct (Nat.eqb (length ce) (length addrs)); [| reflexivity].
  rewrite !assert_true.
  destruct (Nat.eqb (length ce) (length offs)); [| reflexivity].
  rewrite assert_true.
  destruct (forallb in_range_0_127 addrs); [| reflexivity].
  rewrite assert_true.
  destruct ((mode =? GPIO_BCM) || (mode =? GPIO_BOARD)); [| reflexivity].
  rewrite assert_true.
  destruct (in_range_0_127 d); [| reflexivity].
  discriminate.
Qed.

Lemma init_accepted ce addrs offs mode d w r w' t :
  config_ok ce addrs offs mode d = true ->
  __init__ hw ce addrs (Some offs) mode d w = (r, w', t) ->
  run_trace ce addrs offs mode d r t.
Proof.
  unfold config_ok, __init__. cbn [isinstance_list]. intros Hc.
  apply andb_prop in Hc. destruct Hc as [Hc ->].
  apply andb_prop in Hc. destruct Hc as [Hc ->].
  apply andb_prop in Hc. destruct Hc as [Hc ->].
  apply andb_prop in Hc. destruct Hc as [-> ->].
  rewrite !assert_true. apply sequencing_run.
Qed.

(** Every call of the constructor is of one of three kinds. *)
Lemma init_run ce addrs offsets mode d w r w' t :
  __init__ hw ce addrs offsets mode d w = (r, w', t) ->
  (r = Raise AssertionError /\ w' = w /\ t = [])
  \/ (exists offs,
        offsets = Some offs /\ config_ok ce addrs offs mode d = true
        /\ run_trace ce addrs offs mode d r t).
Proof.
  intros H. destruct offsets as [offs |].
  - destruct (config_ok ce addrs offs mode d) eqn:Hc.
    + right. exists offs. repeat split; trivial.
      eapply init_accepted; eassumption.
    + rewrite init_rejected in H by assumption.
      injection H as <- <- <-. left. auto.
  - rewrite init_without_offsets in H. injection H as <- <- <-. left. auto.
Qed.

End Runs.

(** ** Indexing and the query methods *)

Lemma getitem_out_of_range {A} (l : list A) (i : Z) :
  i < - Z.of_nat (length l) \/ Z.of_nat (length l) <= i ->
  getitem l i = Raise IndexError.
Proof.
  intros H. unfold getitem. cbv zeta.
  destruct (i <? 0) eqn:Hi.
  - apply Z.ltb_lt in Hi.
    assert (E : (i + Z.of_nat (length l) <? 0) = true)
      by (apply Z.ltb_lt; lia).
    rewrite E. reflexivity.
  - apply Z.ltb_ge in Hi.
    assert (E : (Z.of_nat (length l) <=? i) = true)
      by (apply Z.leb_le; lia).
    rewrite E, orb_true_r. reflexivity.
Qed.

Lemma getitem_in_range {A} (l : list A) (i : Z) :
  0 <= i < Z.of_nat (length l) ->
  exists x, nth_error l (Z.to_nat i) = Some x /\ getitem l i = Ok x.
Proof.
  intros H. unfold getitem. cbv zeta.
  assert (E1 : (i <? 0) = false) by (apply Z.ltb_ge; lia).
  assert (E2 : (Z.of_nat (length l) <=? i) = false) by (apply Z.leb_gt; lia).
  rewrite E1. rewrite E1, E2. cbn [orb].
  destruct (nth_error l (Z.to_nat i)) as [x |] eqn:Hn.
  - exists x. auto.
  - apply nth_error_None in Hn. lia.
Qed.

Lemma getitem_negative {A} (l : list A) (i : Z) :
  - Z.of_nat (length l) <= i < 0 ->
  getitem l i = getitem l (i + Z.of_nat (length l)).
Proof.
  intros H. unfold getitem. cbv zeta.
  assert (E1 : (i <? 0) = true) by (apply Z.ltb_lt; lia).
  assert (E2 : (i + Z.of_nat (length l) <? 0) = false)
    by (apply Z.ltb_ge; lia).
  rewrite E1, !E2. reflexivity.
Qed.

Section Queries.

Variable hw : Hardware.

(** What a query does, by cases on the index and on the read; outside
    the list, also on the length of the index in decimal. *)
Lemma get_range_cases self idx w :
  get_range hw self idx w =
  match getitem (sensors self) idx with
  | Raise _ =>
      if str_raises idx
      then (Raise ValueError, w, [E_print (Raise ValueError)])
      else (Ok None, w, [])
  | Ok s =>
      match hw_range hw s w with
      | (Ok v, w') => (Ok (Some v), w', [E_range s (Ok v)])
      | (Raise e, w') => (Ok None, w', [E_range s (Raise e)])
      end
  end.
Proof.
  unfold get_range, try_except, bind, lift, range, print_index, print_int, print,
    ret.
  destruct (getitem (sensors self) idx) as [s | e]; cbn.
  - destruct (hw_range hw s w) as [[v | e] w']; cbn; [reflexivity |].
    destruct e; reflexivity.
  - destruct e; cbn; destruct (str_raises idx); reflexivity.
Qed.

Lemma get_range_status_cases self idx w :
  get_range_status hw self idx w =
  match getitem (sensors self) idx with
  | Raise _ =>
      if str_raises idx
      then (Raise ValueError, w, [E_print (Raise ValueError)])
      else (Ok None, w, [])
  | Ok s =>
      match hw_range_status hw s w with
      | (Ok v, w') => (Ok (Some v), w', [E_range_status s (Ok v)])
      | (Raise e, w') => (Ok None, w', [E_range_status s (Raise e)])
      end
  end.
Proof.
  unfold get_range_status, try_except, bind, lift, range_status, print_index, print_int, print,
    ret.
  destruct (getitem (sensors self) idx) as [s | e]; cbn.
  - destruct (hw_range_status hw s w) as [[v | e] w']; cbn; [reflexivity |].
    destruct e; reflexivity.
  - destruct e; cbn; destruct (str_raises idx); reflexivity.
Qed.

Lemma get_lux_cases self idx gain w :
  get_lux hw self idx gain w =
  match getitem (sensors self) idx with
  | Raise _ =>
      if str_raises idx
      then (Raise ValueError, w, [E_print (Raise ValueError)])
      else (Ok None, w, [])
  | Ok s =>
      match hw_read_lux hw s gain w with
      | (Ok v, w') => (Ok (Some v), w', [E_read_lux s gain true])
      | (Raise e, w') => (Ok None, w', [E_read_lux s gain false])
      end
  end.
Proof.
  unfold get_lux, try_except, bind, lift, read_lux, print_index, print_int, print,
    ret.
  destruct (getitem (sensors self) idx) as [s | e]; cbn.
  - destruct (hw_read_lux hw s gain w) as [[v | e] w']; cbn; [reflexivity |].
    destruct e; reflexivity.
  - destruct e; cbn; destruct (str_raises idx); reflexivity.
Qed.

End Queries.

Lemma str_limit_eq : str_limit = 10 ^ int_max_str_digits.
Proof. vm_compute. reflexivity. Qed.

Lemma str_raises_false (n : Z) :
  str_raises n = false <-> Z.abs n < 10 ^ int_max_str_digits.
Proof. rewrite <- str_limit_eq. unfold str_raises. apply Z.leb_gt. Qed.

Lemma str_raises_true (n : Z) :
  str_raises n = true <-> 10 ^ int_max_str_digits <= Z.abs n.
Proof. rewrite <- str_limit_eq. unfold str_raises. apply Z.leb_le. Qed.

Lemma one_below_the_limit : 1 < 10 ^ int_max_str_digits.
Proof. apply Z.pow_gt_1; [reflexivity | reflexivity]. Qed.

(** C8. The query methods ([get_range], [get_lux], [get_range_status])
    return [None] for an index out of range, without any call to the
    sensor, as long as the index has at most 4300 decimal digits, and
    then never raise; a read that raises (an [OSError] of the bus as well
    as any other exception) at an index within the list gives [None]
    too.  But for an index out of range of more than 4300 digits the print
    of the handler raises [ValueError], which reaches the caller: there
    the claim fails. *)
Theorem queries_return_None_unless_the_index_is_too_long
    (hw : Hardware) (self : MultiSensor) (idx gain : Z) (w : World hw) :
  let n := Z.of_nat (length (sensors self)) in
  (Z.abs idx < 10 ^ int_max_str_digits ->
   ((exists v w' t, get_range hw self idx w = (Ok v, w', t))
    /\ (exists v w' t, get_lux hw self idx gain w = (Ok v, w', t))
    /\ (exists v w' t, get_range_status hw self idx w = (Ok v, w', t)))
   /\ (idx < - n \/ n <= idx ->
       get_range hw self idx w = (Ok None, w, [])
       /\ get_lux hw self idx gain w = (Ok None, w, [])
       /\ get_range_status hw self idx w = (Ok None, w, [])))
  /\ (forall s e w',
        getitem (sensors self) idx = Ok s ->
        (hw_range hw s w = (Raise e, w') ->
         get_range hw self idx w = (Ok None, w', [E_range s (Raise e)]))
        /\ (hw_read_lux hw s gain w = (Raise e, w') ->
            get_lux hw self idx gain w
            = (Ok None, w', [E_read_lux s gain false]))
        /\ (hw_range_status hw s w = (Raise e, w') ->
            get_range_status hw self idx w
            = (Ok None, w', [E_range_status s (Raise e)])))
  /\ (idx < - n \/ n <= idx ->
      10 ^ int_max_str_digits <= Z.abs idx ->
      get_range hw self idx w
      = (Raise ValueError, w, [E_print (Raise ValueError)])
      /\ get_lux hw self idx gain w
         = (Raise ValueError, w, [E_print (Raise ValueError)])
      /\ get_range_status hw self idx w
         = (Raise ValueError, w, [E_print (Raise ValueError)])).
Proof.
  intros n. split; [| split].
  - intros Hlen. apply str_raises_false in Hlen. split.
    + rewrite get_range_cases, get_lux_cases, get_range_status_cases, Hlen.
      destruct (getitem (sensors self) idx) as [s | e].
      * destruct (hw_range hw s w) as [[v1 | e1] w1];
          destruct (hw_read_lux hw s gain w) as [[v2 | e2] w2];
          destruct (hw_range_status hw s w) as [[v3 | e3] w3];
          repeat split; eauto.
      * repeat split; eauto.
    + intros H. apply getitem_out_of_range in H.
      rewrite get_range_cases, get_lux_cases, get_range_status_cases, H, Hlen.
      auto.
  - intros s e w' Hs.
    rewrite get_range_cases, get_lux_cases, get_range_status_cases, Hs.
    repeat split; intros ->; reflexivity.
  - intros H Hlen. apply getitem_out_of_range in H.
    apply str_raises_true in Hlen.
    rewrite get_range_cases, get_lux_cases, get_range_status_cases, H, Hlen.
    auto.
Qed.

Lemma queries_return_None_unless_the_index_is_too_long_witness :
  get_range (bench all_fine) (mkMultiSensor [mkVL6180X 48 0]) 1 0%nat
  = (Ok None, 0%nat, [])
  /\ get_range (bench all_fine) (mkMultiSensor [mkVL6180X 48 0])
       (10 ^ int_max_str_digits) 0%nat
     = (Raise ValueError, 0%nat, [E_print (Raise ValueError)]).
Proof.
  destruct (queries_return_None_unless_the_index_is_too_long
              (bench all_fine) (mkMultiSensor [mkVL6180X 48 0]) 1 0 0%nat)
    as (H1 & _ & _).
  destruct (queries_return_None_unless_the_index_is_too_long
              (bench all_fine) (mkMultiSensor [mkVL6180X 48 0])
              (10 ^ int_max_str_digits) 0 0%nat)
    as (_ & _ & H2).
  assert (Hlim := one_below_the_limit).
  split.
  - apply H1; [exact Hlim |]. right. apply Z.le_refl.
  - apply H2.
    + right. apply Z.lt_le_incl. exact Hlim.
    + rewrite Z.abs_eq; [apply Z.le_refl |].
      apply Z.lt_le_incl, (Z.lt_trans 0 1); [reflexivity | exact Hlim].
Defined.

(** C10. On a collection of [n] sensors, an index [i] with
    [-n <= i < 0] is not an invalid index: the query reads the sensor at
    position [n + i], exactly as the same query at index [n + i] does, and
    returns its reading when the read succeeds. *)
Theorem negative_index_reads_from_the_end
    (hw : Hardware) (self : MultiSensor) (i gain : Z) (w : World hw) :
  let n := Z.of_nat (length (sensors self)) in
  - n <= i < 0 ->
  exists s,
    nth_error (sensors self) (Z.to_nat (n + i)) = Some s
    /\ (get_range hw self i w = get_range hw self (n + i) w
        /\ forall v w', hw_range hw s w = (Ok v, w') ->
             get_range hw self i w = (Ok (Some v), w', [E_range s (Ok v)]))
    /\ (get_lux hw self i gain w = get_lux hw self (n + i) gain w
        /\ forall v w', hw_read_lux hw s gain w = (Ok v, w') ->
             get_lux hw self i gain w
             = (Ok (Some v), w', [E_read_lux s gain true]))
    /\ (get_range_status hw self i w = get_range_status hw self (n + i) w
        /\ forall v w', hw_range_status hw s w = (Ok v, w') ->
             get_range_status hw self i w
             = (Ok (Some v), w', [E_range_status s (Ok v)])).
Proof.
  intros n H.
  destruct (getitem_in_range (sensors self) (n + i)) as (s & Hn & Hs);
    [fold n; lia |].
  assert (Hi : getitem (sensors self) i = Ok s).
  { rewrite getitem_negative by (fold n; lia). fold n.
    rewrite Z.add_comm. exact Hs. }
  exists s. split; [exact Hn |].
  rewrite !get_range_cases, !get_lux_cases, !get_range_status_cases, Hi, Hs.
  repeat split; intros v w' ->; reflexivity.
Qed.

Lemma negative_index_reads_from_the_end_witness :
  get_range (bench all_fine)
    (mkMultiSensor [mkVL6180X 48 0; mkVL6180X 49 0]) (-1) 0%nat
  = (Ok (Some 42), 1%nat, [E_range (mkVL6180X 49 0) (Ok 42)]).
Proof.
  destruct (negative_index_reads_from_the_end (bench all_fine)
              (mkMultiSensor [mkVL6180X 48 0; mkVL6180X 49 0]) (-1) 0 0%nat)
    as (s & Hs & (_ & Hr) & _).
  - simpl. lia.
  - injection Hs as <-. apply Hr. reflexivity.
Defined.

(** ** The checks of the constructor *)

Lemma in_range_0_127_spec (a : Z) :
  in_range_0_127 a = true <-> 0 <= a <= 127.
Proof.
  unfold in_range_0_127. rewrite andb_true_iff, !Z.leb_le. reflexivity.
Qed.

Lemma config_ok_spec ce addrs offs mode d :
  config_ok ce addrs offs mode d = true <->
  length ce = length addrs
  /\ length ce = length offs
  /\ (forall a, In a addrs -> 0 <= a <= 127)
  /\ (mode = GPIO_BCM \/ mode = GPIO_BOARD)
  /\ 0 <= d <= 127.
Proof.
  unfold config_ok.
  rewrite !andb_true_iff, !Nat.eqb_eq, forallb_forall, orb_true_iff,
    !Z.eqb_eq, in_range_0_127_spec.
  setoid_rewrite in_range_0_127_spec. tauto.
Qed.

Lemma run_trace_not_nil ce addrs offs mode d r t :
  run_trace ce addrs offs mode d r t -> t <> [].
Proof. destruct 1; discriminate. Qed.

(** C7. When the list of enable lines and the list of addresses differ
    in length, or a target address or the default address is outside
    0..127, or the numbering scheme is neither [GPIO.BCM] nor
    [GPIO.BOARD], the constructor raises [AssertionError] and has made no
    external call: the log is empty and the world is as it was. *)
Theorem invalid_configuration_fails_before_hardware
    (hw : Hardware) (ce addrs : list Z) (offsets : option (list Z))
    (mode d : Z) (w : World hw) :
  length ce <> length addrs
  \/ (exists a, In a addrs /\ ~ 0 <= a <= 127)
  \/ ~ 0 <= d <= 127
  \/ (mode <> GPIO_BCM /\ mode <> GPIO_BOARD) ->
  __init__ hw ce addrs offsets mode d w = (Raise AssertionError, w, []).
Proof.
  intros H. destruct offsets as [offs |].
  - apply init_rejected.
    destruct (config_ok ce addrs offs mode d) eqn:Hc; [| reflexivity].
    apply config_ok_spec in Hc.
    destruct Hc as (Hlen & _ & Haddrs & Hmode & Hd).
    destruct H as [H | [(a & Ha & H) | [H | [H1 H2]]]].
    + contradiction.
    + elim H. apply Haddrs. exact Ha.
    + contradiction.
    + destruct Hmode; contradiction.
  - apply init_without_offsets.
Qed.

Lemma invalid_configuration_fails_before_hardware_witness :
  __init__ (bench all_fine) [10; 9] [0x30; 0x80] (Some [0; 0]) GPIO_BCM
    0x29 0%nat
  = (Raise AssertionError, 0%nat, []).
Proof.
  apply invalid_configuration_fails_before_hardware.
  right. left. exists 0x80. split; [simpl; auto | lia].
Defined.

(** C3. The constructor called without [offsets] ([None], the default of
    the parameter) raises [AssertionError] before any external call,
    whatever the other arguments are: the assertion that [offsets] is a
    list comes before the replacement of [None] by zeros.  With the list
    of zeros given explicitly the same call is not rejected. *)
Theorem omitted_offsets_are_rejected
    (hw : Hardware) (ce addrs : list Z) (mode d : Z) (w : World hw) :
  __init__ hw ce addrs None mode d w = (Raise AssertionError, w, [])
  /\ (config_ok ce addrs (repeat 0 (length ce)) mode d = true ->
      __init__ hw ce addrs (Some (repeat 0 (length ce))) mode d w
      <> __init__ hw ce addrs None mode d w).
Proof.
  split.
  - apply init_without_offsets.
  - intros Hc Heq. rewrite init_without_offsets in Heq.
    eapply run_trace_not_nil; [| reflexivity].
    eapply init_accepted; eassumption.
Qed.

Lemma omitted_offsets_are_rejected_witness :
  __init__ (bench all_fine) [10; 9] [0x30; 0x31] (Some [0; 0]) GPIO_BCM
    0x29 0%nat
  <> __init__ (bench all_fine) [10; 9] [0x30; 0x31] None GPIO_BCM 0x29
       0%nat.
Proof.
  apply (omitted_offsets_are_rejected (bench all_fine) [10; 9] [0x30; 0x31]
           GPIO_BCM 0x29 0%nat).
  reflexivity.
Defined.

(** ** The second loop: which sensors are returned *)

Lemma Subseq_length {A} (l1 l2 : list A) :
  Subseq l1 l2 -> (length l1 <= length l2)%nat.
Proof. induction 1; simpl; lia. Qed.

Lemma Subseq_map {A B} (f : A -> B) (l1 l2 : list A) :
  Subseq l1 l2 -> Subseq (map f l1) (map f l2).
Proof. induction 1; simpl; constructor; assumption. Qed.

Lemma Subseq_In {A} (l1 l2 : list A) (x : A) :
  Subseq l1 l2 -> In x l1 -> In x l2.
Proof.
  induction 1; simpl; intros Hx.
  - exact Hx.
  - right. auto.
  - destruct Hx; [left | right]; auto.
Qed.

(** The sensors added by the loop are those whose driver opened, in the
    order of the log. *)
Lemma inst_trace_result l acc r t :
  inst_trace l acc r t ->
  forall res, r = Ok res -> res = acc ++ map sensor_of (opened_ok t).
Proof.
  induction 1 as [acc | a o rest acc r t _ IH | a o rest acc r t _ IH
                 | a o rest acc e Hne]; intros res Hr.
  - injection Hr as <-. simpl. rewrite app_nil_r. reflexivity.
  - rewrite (IH res Hr). simpl. rewrite <- app_assoc. reflexivity.
  - rewrite (IH res Hr). reflexivity.
  - discriminate.
Qed.

(** A loop that ends has tried every pair once, in order. *)
Lemma inst_trace_opened l acc r t :
  inst_trace l acc r t -> forall res, r = Ok res -> opened t = l.
Proof.
  induction 1 as [acc | a o rest acc r t _ IH | a o rest acc r t _ IH
                 | a o rest acc e Hne]; intros res Hr; simpl.
  - reflexivity.
  - f_equal. eapply IH. eassumption.
  - f_equal. eapply IH. eassumption.
  - discriminate.
Qed.

Lemma inst_trace_subseq l acc r t :
  inst_trace l acc r t -> Subseq (opened_ok t) l.
Proof.
  induction 1; simpl.
  - constructor.
  - apply Subseq_keep. assumption.
  - apply Subseq_skip. assumption.
  - apply Subseq_skip. clear. induction rest; constructor; assumption.
Qed.

Lemma inst_trace_recovered l acc r t :
  inst_trace l acc r t ->
  forallb recovered t = true -> exists res, r = Ok res.
Proof.
  induction 1 as [acc | a o rest acc r t _ IH | a o rest acc r t _ IH
                 | a o rest acc e Hne]; simpl; intros Hrec.
  - eauto.
  - auto.
  - auto.
  - destruct e; try discriminate. contradiction.
Qed.

Lemma turn_trace_recovered d a c r t :
  turn_trace d a c r t -> forallb recovered t = true -> r = Ok tt.
Proof.
  destruct 1 as [e | | e Hne | | | e Hne | Hs]; simpl; intros Hrec;
    try reflexivity; try discriminate;
    destruct e; try discriminate; contradiction.
Qed.

Lemma loop_trace_recovered d items r t :
  loop_trace d items r t -> forallb recovered t = true -> r = Ok tt.
Proof.
  induction 1 as [| a c rest e t Ht | a c rest t1 r t2 Ht Hl IH];
    intros Hrec.
  - reflexivity.
  - eapply turn_trace_recovered; eassumption.
  - rewrite forallb_app in Hrec. apply andb_prop in Hrec. apply IH, Hrec.
Qed.

Section Returned.

Variable hw : Hardware.

(** A constructor that returns has gone through both loops. *)
Lemma init_returns ce addrs offsets mode d w self w' t :
  __init__ hw ce addrs offsets mode d w = (Ok self, w', t) ->
  exists offs busy tp tf,
    offsets = Some offs
    /\ config_ok ce addrs offs mode d = true
    /\ t = prelude mode ce busy ++ tp ++ tf
    /\ loop_trace d (working_address addrs ce busy) (Ok tt) tp
    /\ inst_trace (combine addrs offs) [] (Ok (sensors self)) tf.
Proof.
  intros H. apply init_run in H.
  destruct H as [(H & _) | (offs & -> & Hc & H)]; [discriminate |].
  exists offs. inversion H as [| | | | | | busy tp r tf Hl Hi Hr Ht].
  destruct r as [l |]; [| discriminate].
  injection Hr as <-. exists busy, tp, tf. auto.
Qed.

End Returned.

(** C5. The sensors a constructor returns are, in order, the sensors of
    some of the (address, offset) entries of its arguments, taken in the
    order of the arguments: the returned list is a subsequence of the
    input list, and every returned sensor is that of an input entry.
    (That the addresses are distinct is not needed.) *)
Theorem returned_sensors_are_a_subsequence
    (hw : Hardware) (ce addrs : list Z) (offsets : option (list Z))
    (mode d : Z) (w w' : World hw) (self : MultiSensor) (t : list event) :
  __init__ hw ce addrs offsets mode d w = (Ok self, w', t) ->
  exists offs,
    offsets = Some offs
    /\ Subseq (sensors self) (map sensor_of (combine addrs offs))
    /\ (forall s, In s (sensors self) ->
        exists ao, In ao (combine addrs offs) /\ s = sensor_of ao).
Proof.
  intros H. apply init_returns in H.
  destruct H as (offs & busy & tp & tf & -> & _ & _ & _ & Hi).
  exists offs. split; [reflexivity |].
  assert (Hsub : Subseq (sensors self) (map sensor_of (combine addrs offs))).
  { rewrite (inst_trace_result _ _ _ _ Hi _ eq_refl). simpl.
    apply Subseq_map. eapply inst_trace_subseq. eassumption. }
  split; [exact Hsub |].
  intros s Hs. apply (Subseq_In _ _ s Hsub) in Hs.
  apply in_map_iff in Hs. destruct Hs as (ao & <- & Hao).
  exists ao. auto.
Qed.

Lemma returned_sensors_are_a_subsequence_witness :
  exists offs,
    Some [100; 100; 100] = Some offs
    /\ Subseq [mkVL6180X 0x30 100; mkVL6180X 0x32 100]
         (map sensor_of (combine [0x30; 0x31; 0x32] offs))
    /\ (forall s, In s [mkVL6180X 0x30 100; mkVL6180X 0x32 100] ->
        exists ao,
          In ao (combine [0x30; 0x31; 0x32] offs) /\ s = sensor_of ao).
Proof.
  apply (returned_sensors_are_a_subsequence (bench one_missing)
           [10; 9; 11] [0x30; 0x31; 0x32] (Some [100; 100; 100])
           GPIO_BCM 0x29 0%nat 17%nat
           (mkMultiSensor [mkVL6180X 0x30 100; mkVL6180X 0x32 100])
           (prelude GPIO_BCM [10; 9; 11] []
            ++ [E_output [10] HIGH (Ok tt); E_sleep; E_VL6180X 0x29 0 (Ok tt);
                E_write_8 0x29 SUBORDINATE_ADDR_REG 0x30 (Ok tt);
                E_output [9] HIGH (Ok tt); E_sleep; E_VL6180X 0x29 0 (Ok tt);
                E_write_8 0x29 SUBORDINATE_ADDR_REG 0x31 (Ok tt);
                E_output [11] HIGH (Ok tt); E_sleep; E_VL6180X 0x29 0 (Ok tt);
                E_write_8 0x29 SUBORDINATE_ADDR_REG 0x32 (Ok tt)]
            ++ [E_VL6180X 0x30 100 (Ok tt);
                E_VL6180X 0x31 100 (Raise OSError);
                E_VL6180X 0x32 100 (Ok tt)])).
  vm_compute. reflexivity.
Defined.

(** C6, as stated, fails: an [OSError] raised by the bus scan is not
    recovered.  The constructor raises it to its caller and returns no
    collection. *)
Lemma scan_error_is_propagated :
  __init__ (bench scan_fails) [10; 9] [0x30; 0x31] (Some [0; 0]) GPIO_BCM
    0x29 0%nat
  = (Raise OSError, 5%nat,
     [E_setmode GPIO_BCM (Ok tt); E_setup [10; 9] (Ok tt);
      E_output [10; 9] LOW (Ok tt); E_I2C (Ok tt); E_scan (Raise OSError)]).
Proof. vm_compute. reflexivity. Qed.

(** C6, amended.  With arguments that pass the assertions, a call in
    which the only external calls that fail are openings of a driver and
    register writes, and fail with [OSError], returns a collection, of at
    most as many sensors as there are entries. *)
Theorem transport_errors_of_the_loops_are_recovered
    (hw : Hardware) (ce addrs offs : list Z) (mode d : Z) (w w' : World hw)
    (r : result MultiSensor) (t : list event) :
  config_ok ce addrs offs mode d = true ->
  __init__ hw ce addrs (Some offs) mode d w = (r, w', t) ->
  forallb recovered t = true ->
  exists self,
    r = Ok self /\ (length (sensors self) <= length ce)%nat.
Proof.
  intros Hc H Hrec. apply init_accepted in H; [| exact Hc].
  apply config_ok_spec in Hc. destruct Hc as (Hlen1 & Hlen2 & _).
  destruct H as [e | e | e | e | e | busy e tp Hl | busy tp r tf Hl Hi];
    try discriminate Hrec.
  - unfold prelude in Hrec. cbn [app] in Hrec.
    assert (Hr : Raise e = Ok tt).
    { eapply loop_trace_recovered; [eassumption |].
      cbn in Hrec. exact Hrec. }
    discriminate Hr.
  - rewrite !forallb_app in Hrec.
    apply andb_prop in Hrec. destruct Hrec as [_ Hrec].
    apply andb_prop in Hrec. destruct Hrec as [_ Hrec].
    destruct (inst_trace_recovered _ _ _ _ Hi Hrec) as (res & ->).
    exists (mkMultiSensor res). split; [reflexivity |]. simpl.
    rewrite (inst_trace_result _ _ _ _ Hi _ eq_refl). simpl.
    rewrite length_map.
    apply inst_trace_subseq, Subseq_length in Hi.
    rewrite length_combine in Hi. lia.
Qed.

Lemma transport_errors_of_the_loops_are_recovered_witness :
  exists self,
    Ok (mkMultiSensor [mkVL6180X 0x30 100; mkVL6180X 0x32 100]) = Ok self
    /\ (length (sensors self) <= length [10; 9; 11])%nat.
Proof.
  apply (transport_errors_of_the_loops_are_recovered (bench one_missing)
           [10; 9; 11] [0x30; 0x31; 0x32] [100; 100; 100]
           GPIO_BCM 0x29 0%nat 17%nat
           (Ok (mkMultiSensor [mkVL6180X 0x30 100; mkVL6180X 0x32 100]))
           (prelude GPIO_BCM [10; 9; 11] []
            ++ [E_output [10] HIGH (Ok tt); E_sleep; E_VL6180X 0x29 0 (Ok tt);
                E_write_8 0x29 SUBORDINATE_ADDR_REG 0x30 (Ok tt);
                E_output [9] HIGH (Ok tt); E_sleep; E_VL6180X 0x29 0 (Ok tt);
                E_write_8 0x29 SUBORDINATE_ADDR_REG 0x31 (Ok tt);
                E_output [11] HIGH (Ok tt); E_sleep; E_VL6180X 0x29 0 (Ok tt);
                E_write_8 0x29 SUBORDINATE_ADDR_REG 0x32 (Ok tt)]
            ++ [E_VL6180X 0x30 100 (Ok tt);
                E_VL6180X 0x31 100 (Raise OSError);
                E_VL6180X 0x32 100 (Ok tt)])).
  - reflexivity.
  - vm_compute. reflexivity.
  - reflexivity.
Defined.

(** ** The dict of the pending entries *)

Lemma dict_set_In (k v : Z) (d : list (Z * Z)) : In (k, v) (dict_set k v d).
Proof.
  induction d as [| [k' v'] d IH]; simpl.
  - auto.
  - destruct (k =? k'); simpl; auto.
Qed.

Lemma dict_set_keeps (k v : Z) (d : list (Z * Z)) (kv : Z * Z) :
  fst kv <> k -> In kv d -> In kv (dict_set k v d).
Proof.
  intros Hne. induction d as [| [k' v'] d IH]; simpl; intros Hin.
  - contradiction.
  - destruct (Z.eqb_spec k k') as [-> | Hk].
    + destruct Hin as [<- | Hin]; [| right; exact Hin].
      elim Hne. reflexivity.
    + destruct Hin as [Hin | Hin]; [left | right]; auto.
Qed.

Lemma dict_set_from (k v : Z) (d : list (Z * Z)) (kv : Z * Z) :
  In kv (dict_set k v d) -> kv = (k, v) \/ In kv d.
Proof.
  induction d as [| [k' v'] d IH]; simpl.
  - intros [<- | []]. auto.
  - destruct (k =? k'); simpl; intros [<- | Hin]; auto.
    destruct (IH Hin); auto.
Qed.

Section Pending.

Variable busy : list Z.

(** One step of the comprehension. *)
Let step (d : list (Z * Z)) (ac : Z * Z) : list (Z * Z) :=
  if contains (fst ac) busy then d else dict_set (fst ac) (snd ac) d.

Lemma pending_fold_from (l : list (Z * Z)) : forall d kv,
  In kv (fold_left step l d) ->
  In kv d \/ (In kv l /\ contains (fst kv) busy = false).
Proof.
  induction l as [| [a c] l IH]; simpl; intros d kv Hin.
  - auto.
  - apply IH in Hin. destruct Hin as [Hin | [Hin Hb]]; [| auto].
    unfold step in Hin. simpl in Hin.
    destruct (contains a busy) eqn:Ha; [auto |].
    apply dict_set_from in Hin. destruct Hin as [-> | Hin]; auto.
Qed.

Lemma pending_fold_keeps (l : list (Z * Z)) : forall d kv,
  ~ In (fst kv) (map fst l) -> In kv d -> In kv (fold_left step l d).
Proof.
  induction l as [| [a c] l IH]; simpl; intros d kv Hk Hin.
  - exact Hin.
  - apply IH; [tauto |]. unfold step. simpl.
    destruct (contains a busy); [exact Hin |].
    apply dict_set_keeps; [| exact Hin]. intros E. apply Hk. auto.
Qed.

(** A pending entry of the dict is an input entry whose address the scan
    did not report. *)
Lemma working_address_from addrs ce a c :
  In (a, c) (working_address addrs ce busy) ->
  In (a, c) (combine addrs ce) /\ contains a busy = false.
Proof.
  unfold working_address. intros Hin.
  apply (pending_fold_from _ [] (a, c)) in Hin.
  destruct Hin as [[] | Hin]. exact Hin.
Qed.

(** The last input entry with a given address, when the scan did not
    report the address, is in the dict. *)
Lemma working_address_last addrs ce l1 l2 a c :
  combine addrs ce = l1 ++ (a, c) :: l2 ->
  ~ In a (map fst l2) ->
  contains a busy = false ->
  In (a, c) (working_address addrs ce busy).
Proof.
  unfold working_address. intros -> Hlast Hb.
  rewrite fold_left_app. simpl.
  apply pending_fold_keeps; [exact Hlast |].
  rewrite Hb. apply dict_set_In.
Qed.

End Pending.

Lemma dict_set_keys (k v : Z) (d : list (Z * Z)) (k' : Z) :
  In k' (map fst (dict_set k v d)) <-> k' = k \/ In k' (map fst d).
Proof.
  induction d as [| [k0 v0] d IH]; simpl.
  - intuition.
  - destruct (Z.eqb_spec k k0) as [-> | Hk]; simpl.
    + intuition.
    + rewrite IH. intuition.
Qed.

Lemma dict_set_NoDup (k v : Z) (d : list (Z * Z)) :
  NoDup (map fst d) -> NoDup (map fst (dict_set k v d)).
Proof.
  induction d as [| [k0 v0] d IH]; simpl; intros Hd.
  - constructor; [simpl; tauto | constructor].
  - inversion Hd as [| ? ? Hnotin Hd']; subst.
    destruct (Z.eqb_spec k k0) as [-> | Hk]; simpl.
    + constructor; assumption.
    + constructor; [| auto].
      rewrite dict_set_keys. intros [E | Hin]; [congruence | contradiction].
Qed.

(** The keys of a dict are distinct. *)
Lemma working_address_NoDup addrs ce busy :
  NoDup (map fst (working_address addrs ce busy)).
Proof.
  unfold working_address.
  assert (H : forall l d, NoDup (map fst d) ->
    NoDup (map fst (fold_left
      (fun d ac => if contains (fst ac) busy then d
                   else dict_set (fst ac) (snd ac) d) l d))).
  { induction l as [| [a c] l IH]; simpl; intros d Hd; [exact Hd |].
    apply IH. destruct (contains a busy); [exact Hd |].
    apply dict_set_NoDup, Hd. }
  apply H. constructor.
Qed.

Lemma NoDup_keys_unique (d : list (Z * Z)) (k v1 v2 : Z) :
  NoDup (map fst d) -> In (k, v1) d -> In (k, v2) d -> v1 = v2.
Proof.
  induction d as [| [k0 v0] d IH]; simpl; intros Hd H1 H2.
  - contradiction.
  - inversion Hd as [| ? ? Hnotin Hd']; subst.
    destruct H1 as [H1 | H1], H2 as [H2 | H2].
    + congruence.
    + injection H1 as -> ->. elim Hnotin.
      apply (in_map fst) in H2. exact H2.
    + injection H2 as -> ->. elim Hnotin.
      apply (in_map fst) in H1. exact H1.
    + auto.
Qed.

(** With distinct enable lines, the line tells the entry. *)
Lemma combine_line_unique (addrs ce : list Z) (a1 a2 c : Z) :
  NoDup ce ->
  In (a1, c) (combine addrs ce) -> In (a2, c) (combine addrs ce) -> a1 = a2.
Proof.
  revert ce. induction addrs as [| a addrs IH]; intros [| c0 ce] Hce;
    simpl; try contradiction.
  inversion Hce as [| ? ? Hnotin Hce']; subst.
  intros [H1 | H1] [H2 | H2].
  - congruence.
  - injection H1 as -> ->. elim Hnotin. eapply in_combine_r. eassumption.
  - injection H2 as -> ->. elim Hnotin. eapply in_combine_r. eassumption.
  - eapply IH; eassumption.
Qed.

(** ** What the loops log *)

Lemma loop_event_incl d items items' e :
  (forall x, In x items -> In x items') ->
  loop_event d items e -> loop_event d items' e.
Proof.
  intros Hincl [H | [H | (a & c & r & Hin & H)]].
  - left. exact H.
  - right. left. exact H.
  - right. right. exists a, c, r. auto.
Qed.

Lemma turn_trace_events d a c r t :
  turn_trace d a c r t -> forall e, In e t -> loop_event d [(a, c)] e.
Proof.
  assert (Hout : forall r', loop_event d [(a, c)] (E_output [c] HIGH r')).
  { intros r'. right. right. exists a, c, r'. simpl. auto. }
  assert (Hwr : forall r',
    loop_event d [(a, c)] (E_write_8 d SUBORDINATE_ADDR_REG a r')).
  { intros r'. right. right. exists a, c, r'. simpl. auto. }
  assert (Hop : forall r', loop_event d [(a, c)] (E_VL6180X d 0 r')).
  { intros r'. right. left. exists r'. reflexivity. }
  assert (Hsl : loop_event d [(a, c)] E_sleep) by (left; reflexivity).
  assert (Hpr : forall r', loop_event d [(a, c)] (E_print r')).
  { intros r'. right. right. exists a, c, r'. simpl. auto. }
  destruct 1; simpl; intros ev Hev;
    repeat (destruct Hev as [<- | Hev]; [auto |]); contradiction.
Qed.

Lemma loop_trace_events d items r t :
  loop_trace d items r t -> forall e, In e t -> loop_event d items e.
Proof.
  induction 1 as [| a c rest e t Ht | a c rest t1 r t2 Ht Hl IH];
    intros ev Hev.
  - contradiction.
  - eapply loop_event_incl; [| eapply turn_trace_events; eassumption].
    simpl. intros x [<- | []]. auto.
  - apply in_app_or in Hev. destruct Hev as [Hev | Hev].
    + eapply loop_event_incl; [| eapply turn_trace_events; eassumption].
      simpl. intros x [<- | []]. auto.
    + eapply loop_event_incl; [| apply IH, Hev]. simpl. auto.
Qed.

Lemma inst_trace_events l acc r t :
  inst_trace l acc r t -> forall e, In e t -> inst_event l e.
Proof.
  induction 1 as [acc | a o rest acc r t _ IH | a o rest acc r t _ IH
                 | a o rest acc e Hne]; simpl; intros ev Hev.
  - contradiction.
  - destruct Hev as [<- | Hev].
    + exists a, o, (Ok tt). split; [left |]; reflexivity.
    + destruct (IH ev Hev) as (a' & o' & r' & Hin & ->).
      exists a', o', r'. split; [right; exact Hin | reflexivity].
  - destruct Hev as [<- | Hev].
    + exists a, o, (Raise OSError). split; [left |]; reflexivity.
    + destruct (IH ev Hev) as (a' & o' & r' & Hin & ->).
      exists a', o', r'. split; [right; exact Hin | reflexivity].
  - destruct Hev as [<- | []]. exists a, o, (Raise e).
    split; [left |]; reflexivity.
Qed.

(** The log of a loop that ends is the logs of its turns, one after the
    other. *)
Lemma loop_trace_split d before a c after : forall tp,
  loop_trace d (before ++ (a, c) :: after) (Ok tt) tp ->
  exists tp1 turn tp2,
    tp = tp1 ++ turn ++ tp2
    /\ loop_trace d before (Ok tt) tp1
    /\ turn_trace d a c (Ok tt) turn
    /\ loop_trace d after (Ok tt) tp2.
Proof.
  induction before as [| [a0 c0] before IH]; simpl; intros tp H.
  - inversion H as [| | ? ? ? t1 ? t2 Ht Hl]; subst.
    exists [], t1, t2. repeat split; [constructor | assumption ..].
  - inversion H as [| | ? ? ? t1 ? t2 Ht Hl]; subst.
    destruct (IH _ Hl) as (tp1 & turn & tp2 & -> & H1 & H2 & H3).
    exists (t1 ++ tp1), turn, tp2. rewrite app_assoc.
    repeat split; [constructor | ..]; assumption.
Qed.

(** A loop that ends has asserted the line of every pending entry. *)
Lemma loop_trace_enables d items tp a c :
  loop_trace d items (Ok tt) tp ->
  In (a, c) items ->
  In (E_output [c] HIGH (Ok tt)) tp.
Proof.
  intros H Hin. apply in_split in Hin. destruct Hin as (l1 & l2 & ->).
  apply loop_trace_split in H.
  destruct H as (tp1 & turn & tp2 & -> & _ & Ht & _).
  apply in_or_app. right. apply in_or_app. left.
  inversion Ht; simpl; auto.
Qed.

(** ** The level of the enable lines *)

Lemma asserted_from_app b t1 t2 c :
  asserted_from b (t1 ++ t2) c = asserted_from (asserted_from b t1 c) t2 c.
Proof.
  revert b. induction t1 as [| e t1 IH]; simpl; intros b; [reflexivity |].
  apply IH.
Qed.

Lemma asserted_from_stays (t : list event) (c : Z) :
  (forall e, In e t -> drives c e <> Some LOW) ->
  asserted_from true t c = true.
Proof.
  induction t as [| e t IH]; simpl; intros H; [reflexivity |].
  destruct (drives c e) as [[] |] eqn:He.
  - elim (H e); auto.
  - apply IH. auto.
  - apply IH. auto.
Qed.

Lemma asserted_from_idle (b : bool) (t : list event) (c : Z) :
  (forall e, In e t -> drives c e = None) ->
  asserted_from b t c = b.
Proof.
  revert b. induction t as [| e t IH]; simpl; intros b H; [reflexivity |].
  rewrite (H e) by auto. apply IH. auto.
Qed.

Lemma loop_event_never_lowers d items e c :
  loop_event d items e -> drives c e <> Some LOW.
Proof.
  intros [-> | [(r & ->) | (a & c' & r & _ & [-> | [-> | ->]])]];
    unfold drives; try discriminate.
  destruct r; [| discriminate]. destruct (contains c [c']); discriminate.
Qed.

Lemma inst_event_idle l e c : inst_event l e -> drives c e = None.
Proof. intros (a & o & r & _ & ->). reflexivity. Qed.

Lemma contains_here (c : Z) (l : list Z) : contains c (c :: l) = true.
Proof. unfold contains. simpl. rewrite Z.eqb_refl. reflexivity. Qed.

Lemma contains_In (c : Z) (l : list Z) : contains c l = true <-> In c l.
Proof.
  unfold contains. rewrite existsb_exists. split.
  - intros (x & Hin & E). apply Z.eqb_eq in E. subst. exact Hin.
  - intros H. exists c. split; [exact H | apply Z.eqb_refl].
Qed.

(** Once asserted by a turn of the first loop, a line stays asserted to
    the end of the call. *)
Lemma asserted_after_turn d items l t0 c rest tp2 tf p q :
  (forall e, In e rest -> drives c e <> Some LOW) ->
  (forall e, In e tp2 -> loop_event d items e) ->
  (forall e, In e tf -> inst_event l e) ->
  tp2 ++ tf = p ++ q ->
  asserted (t0 ++ (E_output [c] HIGH (Ok tt) :: rest) ++ p) c = true.
Proof.
  intros Hrest H2 Hf Hp. unfold asserted.
  rewrite asserted_from_app. cbn [app asserted_from drives].
  rewrite contains_here.
  rewrite asserted_from_app.
  rewrite (asserted_from_stays rest c Hrest).
  apply asserted_from_stays. intros e He.
  assert (Hin : In e (tp2 ++ tf)) by (rewrite Hp; apply in_or_app; auto).
  apply in_app_or in Hin. destruct Hin as [Hin | Hin].
  - eapply loop_event_never_lowers. apply H2, Hin.
  - rewrite (inst_event_idle l e c (Hf e Hin)). discriminate.
Qed.

(** C1, as stated, fails: the write of address 0x30 raises [OSError],
    and the sensor at 0x30 is in the returned collection all the same,
    because the second loop opens a driver at every target address
    whatever happened in the first loop. *)
Lemma failed_device_is_still_returned :
  exists self w' t,
    __init__ (bench first_write_fails) [10; 9] [0x30; 0x31]
      (Some [100; 100]) GPIO_BCM 0x29 0%nat = (Ok self, w', t)
    /\ In (E_scan (Ok [])) t
    /\ In (E_write_8 0x29 SUBORDINATE_ADDR_REG 0x30 (Raise OSError)) t
    /\ In (mkVL6180X 0x30 100) (sensors self).
Proof.
  eexists. eexists. eexists. split; [vm_compute; reflexivity |].
  repeat split; simpl; auto 10.
Qed.

(** C1, amended.  When the write of address [a] raises [OSError] in a
    call that returns, the first loop goes on with every later pending
    entry (the rest of the log of the first loop is the log of a complete
    loop over them, in which the line of each is asserted), the enable
    line [c] of the failed entry is asserted
    at every later instant of the call, and the second loop opens a
    driver for every input entry: the returned sensors are those whose
    driver opened there, the failed one included if its driver opens. *)
Theorem failed_write_does_not_stop_sequencing
    (hw : Hardware) (ce addrs : list Z) (offsets : option (list Z))
    (mode d : Z) (w w' : World hw) (self : MultiSensor) (t : list event)
    (a : Z) :
  __init__ hw ce addrs offsets mode d w = (Ok self, w', t) ->
  In (E_write_8 d SUBORDINATE_ADDR_REG a (Raise OSError)) t ->
  exists offs busy c before after tp1 tp2 tf,
    let failed :=
      [E_output [c] HIGH (Ok tt); E_sleep; E_VL6180X d 0 (Ok tt);
       E_write_8 d SUBORDINATE_ADDR_REG a (Raise OSError)] in
    offsets = Some offs
    /\ working_address addrs ce busy = before ++ (a, c) :: after
    /\ t = prelude mode ce busy ++ (tp1 ++ failed ++ tp2) ++ tf
    /\ loop_trace d after (Ok tt) tp2
    /\ (forall a2 c2, In (a2, c2) after ->
        In (E_output [c2] HIGH (Ok tt)) tp2)
    /\ (forall p q, tp2 ++ tf = p ++ q ->
        asserted (prelude mode ce busy ++ tp1 ++ failed ++ p) c = true)
    /\ opened tf = combine addrs offs
    /\ sensors self = map sensor_of (opened_ok tf).
Proof.
  intros H Hfail. apply init_returns in H.
  destruct H as (offs & busy & tp & tf & -> & _ & -> & Hl & Hi).
  assert (Hev := loop_trace_events _ _ _ _ Hl).
  assert (Hevf := inst_trace_events _ _ _ _ Hi).
  (* the failed write is in the log of the first loop *)
  assert (Hin : In (E_write_8 d SUBORDINATE_ADDR_REG a (Raise OSError)) tp).
  { apply in_app_or in Hfail. destruct Hfail as [Hp | Hfail].
    - simpl in Hp. repeat (destruct Hp as [Hp | Hp]; [discriminate |]).
      contradiction.
    - apply in_app_or in Hfail. destruct Hfail as [Hfail | Hfail];
        [exact Hfail |].
      destruct (Hevf _ Hfail) as (? & ? & ? & _ & E). discriminate. }
  (* it belongs to the turn of a pending entry *)
  assert (Hitem : exists c, In (a, c) (working_address addrs ce busy)).
  { destruct (Hev _ Hin) as [E | [(r & E) | (a' & c & r & Hac & [E | [E | E]])]];
      try discriminate.
    injection E as <- _. exists c. exact Hac. }
  destruct Hitem as (c & Hac).
  destruct (in_split _ _ Hac) as (before & after & Hsplit).
  rewrite Hsplit in Hl. apply loop_trace_split in Hl.
  destruct Hl as (tp1 & turn & tp2 & -> & H1 & Ht & H2).
  assert (Hnd := working_address_NoDup addrs ce busy).
  rewrite Hsplit, map_app in Hnd. simpl in Hnd.
  assert (Hnotin := NoDup_remove_2 _ _ _ Hnd).
  assert (Hturn : turn =
    [E_output [c] HIGH (Ok tt); E_sleep; E_VL6180X d 0 (Ok tt);
     E_write_8 d SUBORDINATE_ADDR_REG a (Raise OSError)]).
  { apply in_app_or in Hin. destruct Hin as [Hin | Hin].
    - exfalso. apply Hnotin, in_or_app. left.
      destruct (loop_trace_events _ _ _ _ H1 _ Hin)
        as [E | [(r & E) | (a' & c' & r & Hac' & [E | [E | E]])]];
        try discriminate.
      injection E as <- _. apply (in_map fst) in Hac'. exact Hac'.
    - apply in_app_or in Hin. destruct Hin as [Hin | Hin].
      + inversion Ht; subst; simpl in Hin;
          repeat (destruct Hin as [Hin | Hin]; [try discriminate |]);
          try contradiction.
        reflexivity.
      + exfalso. apply Hnotin, in_or_app. right.
        destruct (loop_trace_events _ _ _ _ H2 _ Hin)
          as [E | [(r & E) | (a' & c' & r & Hac' & [E | [E | E]])]];
          try discriminate.
        injection E as <- _. apply (in_map fst) in Hac'. exact Hac'. }
  subst turn.
  exists offs, busy, c, before, after, tp1, tp2, tf. cbv zeta.
  repeat split; try assumption; try reflexivity.
  - intros a2 c2 Hin2. eapply loop_trace_enables; eassumption.
  - intros p q Hp. rewrite app_assoc.
    apply (asserted_after_turn d after (combine addrs offs)
             (prelude mode ce busy ++ tp1) c _ tp2 tf p q).
    + simpl. intros e [<- | [<- | [<- | []]]]; discriminate.
    + apply (loop_trace_events _ _ _ _ H2).
    + exact Hevf.
    + exact Hp.
  - eapply inst_trace_opened; [eassumption | reflexivity].
  - apply (inst_trace_result _ _ _ _ Hi _ eq_refl).
Qed.

(** ** One sensor at a time *)

Lemma reassigned_app t1 t2 a :
  reassigned (t1 ++ t2) a = reassigned t1 a || reassigned t2 a.
Proof. unfold reassigned. apply existsb_app. Qed.

Lemma asserted_app t1 t2 c :
  asserted (t1 ++ t2) c = asserted_from (asserted t1 c) t2 c.
Proof. unfold asserted. apply asserted_from_app. Qed.

(** Events that raise no line leave no device exposed. *)
Lemma asserted_from_not_raised (b : bool) (t : list event) (c : Z) :
  (forall e, In e t -> drives c e <> Some HIGH) ->
  asserted_from b t c = true -> b = true.
Proof.
  revert b. induction t as [| e t IH]; simpl; intros b H Ha; [exact Ha |].
  apply IH in Ha; [| auto].
  destruct (drives c e) as [[] |] eqn:He.
  - discriminate.
  - elim (H e); auto.
  - exact Ha.
Qed.

Lemma quiet_at_most_one devs t : quiet devs t -> at_most_one_exposed devs t.
Proof. intros Hq dev1 dev2 H1 _ E. rewrite (Hq dev1 H1) in E. discriminate. Qed.

Lemma quiet_nil devs : quiet devs [].
Proof. intros dev _. reflexivity. Qed.

Lemma quiet_idle devs t0 p :
  quiet devs t0 ->
  (forall e c, In e p -> drives c e <> Some HIGH) ->
  quiet devs (t0 ++ p).
Proof.
  intros Hq Hp dev Hdev. specialize (Hq dev Hdev). unfold exposed in *.
  rewrite asserted_app, reassigned_app.
  destruct (asserted_from (asserted t0 (snd dev)) p (snd dev)) eqn:Ha;
    [| reflexivity].
  apply asserted_from_not_raised in Ha; [| intros e He; apply Hp, He].
  rewrite Ha in Hq. simpl in Hq. apply negb_false_iff in Hq.
  rewrite Hq. reflexivity.
Qed.

Section OneTurn.

Variables (devs : list (Z * Z)) (d a c : Z).

Hypothesis line_unique :
  forall dev, In dev devs -> snd dev = c -> dev = (a, c).

(** During the turn of the entry [(a, c)], from a log after which no
    device is exposed, only the device on line [c] may be exposed. *)
Lemma turn_exposes_one t0 p :
  quiet devs t0 ->
  (forall e, In e p -> loop_event d [(a, c)] e) ->
  forall dev, In dev devs -> exposed (t0 ++ p) dev = true -> dev = (a, c).
Proof.
  intros Hq Hp dev Hdev He. apply line_unique; [exact Hdev |].
  destruct (Z.eq_dec (snd dev) c) as [E | Hne]; [exact E | exfalso].
  specialize (Hq dev Hdev). unfold exposed in *.
  rewrite asserted_app, reassigned_app in He.
  rewrite asserted_from_idle in He.
  - apply andb_prop in He. destruct He as [Ha Hr].
    rewrite Ha in Hq. simpl in Hq. apply negb_false_iff in Hq.
    rewrite Hq in Hr. discriminate.
  - intros e Hin.
    destruct (Hp e Hin)
      as [-> | [(r & ->) | (a' & c' & r & Hac & [-> | [-> | ->]])]];
      try reflexivity.
    destruct Hac as [Hac | []]. injection Hac as <- <-.
    unfold drives. destruct r; [| reflexivity].
    replace (contains (snd dev) [c]) with false; [reflexivity |].
    symmetry. unfold contains. simpl.
    rewrite orb_false_r. apply Z.eqb_neq. exact Hne.
Qed.

Lemma turn_at_most_one t0 p :
  quiet devs t0 ->
  (forall e, In e p -> loop_event d [(a, c)] e) ->
  at_most_one_exposed devs (t0 ++ p).
Proof.
  intros Hq Hp dev1 dev2 H1 H2 E1 E2.
  rewrite (turn_exposes_one t0 p Hq Hp dev1 H1 E1).
  rewrite (turn_exposes_one t0 p Hq Hp dev2 H2 E2). reflexivity.
Qed.

(** After the write of [a] went through, no device is exposed again. *)
Lemma turn_quiet t0 turn :
  quiet devs t0 ->
  (forall e, In e turn -> loop_event d [(a, c)] e) ->
  In (E_write_8 d SUBORDINATE_ADDR_REG a (Ok tt)) turn ->
  quiet devs (t0 ++ turn).
Proof.
  intros Hq Hp Hw dev Hdev.
  destruct (exposed (t0 ++ turn) dev) eqn:He; [exfalso | reflexivity].
  assert (E := turn_exposes_one t0 turn Hq Hp dev Hdev He). subst dev.
  unfold exposed in He. apply andb_prop in He. destruct He as [_ Hr].
  apply negb_true_iff in Hr. simpl in Hr.
  rewrite reassigned_app in Hr. apply orb_false_elim in Hr.
  destruct Hr as [_ Hr]. unfold reassigned in Hr.
  assert (Hex : existsb (writes_address a) turn = true).
  { apply existsb_exists. eexists. split; [exact Hw |]. simpl.
    rewrite !Z.eqb_refl. reflexivity. }
  rewrite Hex in Hr. discriminate.
Qed.

End OneTurn.

Section OneAtATime.

Variables (devs : list (Z * Z)) (d : Z).

Hypothesis line_tells_device :
  forall dev1 dev2,
    In dev1 devs -> In dev2 devs -> snd dev1 = snd dev2 -> dev1 = dev2.

(** A prefix of a log holds events of the log. *)
Lemma prefix_events {P : event -> Prop} (t p q : list event) :
  (forall e, In e t -> P e) -> t = p ++ q -> forall e, In e p -> P e.
Proof. intros H -> e He. apply H, in_or_app. auto. Qed.

(** The first loop leaves at most one device exposed at any instant
    before which no reassignment step has failed, and none when it ends
    without such a failure. *)
Lemma loop_at_most_one items r tp :
  loop_trace d items r tp ->
  (forall item, In item items -> In item devs) ->
  forall t0,
    quiet devs t0 ->
    (forall p q,
        tp = p ++ q ->
        (forall e, In e p -> reassignment_fails d e = false) ->
        at_most_one_exposed devs (t0 ++ p))
    /\ ((forall e, In e tp -> reassignment_fails d e = false) ->
        quiet devs (t0 ++ tp)).
Proof.
  induction 1 as [| a c rest e t Ht | a c rest t1 r t2 Ht Hl IH];
    intros Hitems t0 Hq.
  - split.
    + intros p q Hp _. symmetry in Hp. apply app_eq_nil in Hp.
      destruct Hp as [-> _]. rewrite app_nil_r.
      apply quiet_at_most_one, Hq.
    + intros _. rewrite app_nil_r. exact Hq.
  - assert (Hu : forall dev, In dev devs -> snd dev = c -> dev = (a, c)).
    { intros dev Hdev E. apply line_tells_device; simpl; auto.
      apply Hitems. simpl. auto. }
    split.
    + intros p q Hp _. apply (turn_at_most_one devs d a c Hu t0 p Hq).
      apply (prefix_events t p q); [| exact Hp].
      apply (turn_trace_events _ _ _ _ _ Ht).
    + intros Hok. inversion Ht; subst.
      * apply quiet_idle; [exact Hq |].
        intros ev c' [<- | []]. discriminate.
      * specialize (Hok (E_VL6180X d 0 (Raise e))). simpl in Hok.
        rewrite Z.eqb_refl in Hok. discriminate Hok. auto.
      * specialize (Hok (E_write_8 d SUBORDINATE_ADDR_REG a (Raise e))).
        simpl in Hok. discriminate Hok. auto.
      * apply quiet_idle; [exact Hq |].
        intros ev c' [<- | []]. discriminate.
  - assert (Hu : forall dev, In dev devs -> snd dev = c -> dev = (a, c)).
    { intros dev Hdev E. apply line_tells_device; simpl; auto.
      apply Hitems. simpl. auto. }
    assert (Hev1 := turn_trace_events _ _ _ _ _ Ht).
    assert (Hq1 : (forall e, In e t1 -> reassignment_fails d e = false) ->
                  quiet devs (t0 ++ t1)).
    { intros Hok.
      apply (turn_quiet devs d a c Hu); [exact Hq | exact Hev1 |].
      inversion Ht; subst.
      - specialize (Hok (E_VL6180X d 0 (Raise OSError))). simpl in Hok.
        rewrite Z.eqb_refl in Hok. discriminate Hok. auto.
      - simpl. auto.
      - specialize
          (Hok (E_write_8 d SUBORDINATE_ADDR_REG a (Raise OSError))).
        simpl in Hok. discriminate Hok. auto. }
    split.
    + intros p q Hp Hok. apply app_eq_app in Hp.
      destruct Hp as (l & [[E1 E2] | [E1 E2]]).
      * apply (turn_at_most_one devs d a c Hu t0 p Hq).
        apply (prefix_events t1 p l); assumption.
      * subst p. rewrite app_assoc.
        assert (Hq' : quiet devs (t0 ++ t1)).
        { apply Hq1. intros e He. apply Hok, in_or_app. auto. }
        destruct (IH (fun x Hx => Hitems x (or_intror Hx)) (t0 ++ t1) Hq')
          as [IH1 _].
        apply (IH1 l q E2). intros e He. apply Hok, in_or_app. auto.
    + intros Hok. rewrite app_assoc.
      assert (Hq' : quiet devs (t0 ++ t1)).
      { apply Hq1. intros e He. apply Hok, in_or_app. auto. }
      destruct (IH (fun x Hx => Hitems x (or_intror Hx)) (t0 ++ t1) Hq')
        as [_ IH2].
      apply IH2. intros e He. apply Hok, in_or_app. auto.
Qed.

End OneAtATime.

Lemma prelude_idle mode ce busy e c :
  In e (prelude mode ce busy) -> drives c e <> Some HIGH.
Proof.
  simpl. intros [<- | [<- | [<- | [<- | [<- | []]]]]]; simpl;
    try discriminate.
  destruct (contains c ce); discriminate.
Qed.

Lemma idle_log_at_most_one devs t p q :
  (forall e c, In e t -> drives c e <> Some HIGH) ->
  t = p ++ q ->
  at_most_one_exposed devs p.
Proof.
  intros H ->. apply quiet_at_most_one.
  apply (quiet_idle devs [] p (quiet_nil devs)).
  intros e c He. apply H, in_or_app. auto.
Qed.

Lemma pre_reassignment_exposed busy t dev :
  pre_reassignment busy t dev = true -> exposed t dev = true.
Proof.
  unfold pre_reassignment, exposed. rewrite <- andb_assoc.
  intros H. apply andb_prop in H. apply H.
Qed.

(** At every instant of a call before which no reassignment step has
    failed, at most one device is exposed, when the enable lines are
    distinct. *)
Lemma run_at_most_one ce addrs offs mode d r t :
  run_trace ce addrs offs mode d r t ->
  NoDup ce ->
  forall p q,
    t = p ++ q ->
    (forall e, In e p -> reassignment_fails d e = false) ->
    at_most_one_exposed (combine addrs ce) p.
Proof.
  intros Hrun Hce. set (devs := combine addrs ce).
  assert (Hline : forall dev1 dev2,
    In dev1 devs -> In dev2 devs -> snd dev1 = snd dev2 -> dev1 = dev2).
  { intros [a1 c1] [a2 c2] H1 H2 E. simpl in E. subst c2. f_equal.
    eapply combine_line_unique; eassumption. }
  assert (Hq0 : forall busy, quiet devs (prelude mode ce busy)).
  { intros busy. apply (quiet_idle devs [] _ (quiet_nil devs)).
    intros e c He. eapply prelude_idle. eassumption. }
  assert (Hitems : forall busy item,
    In item (working_address addrs ce busy) -> In item devs).
  { intros busy [a c] Hin. apply working_address_from in Hin. apply Hin. }
  destruct Hrun as [e | e | e | e | e | busy e tp Hl | busy tp r tf Hl Hi];
    intros p q Hp Hok;
    try (refine (idle_log_at_most_one devs _ p q _ Hp);
         intros ev c Hev; simpl in Hev;
         repeat (destruct Hev as [<- | Hev]; [simpl; try discriminate |]);
         try contradiction;
         destruct (contains c ce); discriminate).
  - destruct (loop_at_most_one devs d Hline _ _ _ Hl
                (Hitems busy) _ (Hq0 busy)) as [H1 _].
    apply app_eq_app in Hp. destruct Hp as (l & [[E1 E2] | [E1 E2]]).
    + apply (idle_log_at_most_one devs (prelude mode ce busy) p l);
        [| exact E1].
      intros ev c Hev. eapply prelude_idle. eassumption.
    + subst p. apply (H1 l q E2).
      intros ev Hev. apply Hok, in_or_app. auto.
  - destruct (loop_at_most_one devs d Hline _ _ _ Hl
                (Hitems busy) _ (Hq0 busy)) as [H1 H2].
    apply app_eq_app in Hp. destruct Hp as (l & [[E1 E2] | [E1 E2]]).
    + apply (idle_log_at_most_one devs (prelude mode ce busy) p l);
        [| exact E1].
      intros ev c Hev. eapply prelude_idle. eassumption.
    + subst p. apply app_eq_app in E2.
      destruct E2 as (l' & [[E3 E4] | [E3 E4]]).
      * apply (H1 l l' E3). intros ev Hev. apply Hok, in_or_app. auto.
      * subst l. rewrite app_assoc. apply quiet_at_most_one.
        apply quiet_idle.
        -- apply H2. intros ev Hev. apply Hok.
           apply in_or_app. right. apply in_or_app. auto.
        -- intros ev c Hev.
           rewrite (inst_event_idle (combine addrs offs) ev c);
             [discriminate |].
           apply (inst_trace_events _ _ _ _ Hi). rewrite E4.
           apply in_or_app. auto.
Qed.

Lemma first_write_fails_run :
  __init__ (bench first_write_fails) [10; 9] [0x30; 0x31]
    (Some [100; 100]) GPIO_BCM 0x29 0%nat
  = (Ok (mkMultiSensor [mkVL6180X 0x30 100; mkVL6180X 0x31 100]),
     13%nat, first_write_fails_log).
Proof. vm_compute. reflexivity. Qed.

(** C2, as stated, fails on the failure path: after the write of 0x30
    has raised [OSError], line 10 stays asserted, and when line 9 is
    asserted in its turn the two sensors are out of reset and neither is
    at its target address. *)
Lemma two_unreassigned_sensors_after_a_failure :
  exists w' self t p q,
    __init__ (bench first_write_fails) [10; 9] [0x30; 0x31]
      (Some [100; 100]) GPIO_BCM 0x29 0%nat = (Ok self, w', t)
    /\ t = p ++ q
    /\ In (0x30, 10) (combine [0x30; 0x31] [10; 9])
    /\ In (0x31, 9) (combine [0x30; 0x31] [10; 9])
    /\ pre_reassignment [] p (0x30, 10) = true
    /\ pre_reassignment [] p (0x31, 9) = true
    /\ (0x30, 10) <> (0x31, 9).
Proof.
  exists 13%nat, (mkMultiSensor [mkVL6180X 0x30 100; mkVL6180X 0x31 100]),
    first_write_fails_log,
    (prelude GPIO_BCM [10; 9] []
     ++ [E_output [10] HIGH (Ok tt); E_sleep; E_VL6180X 0x29 0 (Ok tt);
         E_write_8 0x29 SUBORDINATE_ADDR_REG 0x30 (Raise OSError);
         E_output [9] HIGH (Ok tt)]),
    [E_sleep; E_VL6180X 0x29 0 (Ok tt);
     E_write_8 0x29 SUBORDINATE_ADDR_REG 0x31 (Ok tt);
     E_VL6180X 0x30 100 (Ok tt); E_VL6180X 0x31 100 (Ok tt)].
  split; [exact first_write_fails_run |].
  split; [reflexivity |].
  split; [simpl; auto |]. split; [simpl; auto |].
  split; [reflexivity |]. split; [reflexivity | discriminate].
Qed.

(** C2, amended.  With distinct enable lines, at every instant of a call
    before which no reassignment step has failed (no register write and
    no driver opened at the default address has raised), at most one
    device is out of reset without having been given its address.  The
    list [busy] is what the scan reported; the statement holds for any
    list. *)
Theorem one_unreassigned_sensor_at_a_time
    (hw : Hardware) (ce addrs : list Z) (offsets : option (list Z))
    (mode d : Z) (w w' : World hw) (r : result MultiSensor)
    (t : list event) (busy : list Z) :
  __init__ hw ce addrs offsets mode d w = (r, w', t) ->
  NoDup ce ->
  forall p q dev1 dev2,
    t = p ++ q ->
    (forall e, In e p -> reassignment_fails d e = false) ->
    In dev1 (combine addrs ce) -> In dev2 (combine addrs ce) ->
    pre_reassignment busy p dev1 = true ->
    pre_reassignment busy p dev2 = true ->
    dev1 = dev2.
Proof.
  intros H Hce p q dev1 dev2 Hp Hok H1 H2 E1 E2.
  apply pre_reassignment_exposed in E1, E2.
  apply init_run in H.
  destruct H as [(_ & _ & ->) | (offs & _ & _ & Hrun)].
  - symmetry in Hp. apply app_eq_nil in Hp. destruct Hp as [-> _].
    discriminate E1.
  - exact (run_at_most_one ce addrs offs mode d r t Hrun Hce p q Hp Hok
             dev1 dev2 H1 H2 E1 E2).
Qed.

Lemma one_unreassigned_sensor_at_a_time_witness :
  NoDup [10; 9; 11]
  /\ pre_reassignment []
       (prelude GPIO_BCM [10; 9; 11] []
        ++ [E_output [10] HIGH (Ok tt); E_sleep; E_VL6180X 0x29 0 (Ok tt);
            E_write_8 0x29 SUBORDINATE_ADDR_REG 0x30 (Ok tt);
            E_output [9] HIGH (Ok tt)]) (0x31, 9) = true
  /\ (0x31, 9) = (0x31, 9).
Proof.
  assert (Hce : NoDup [10; 9; 11]).
  { repeat constructor; simpl; lia. }
  split; [exact Hce |]. split; [reflexivity |].
  refine (one_unreassigned_sensor_at_a_time (bench all_fine)
           [10; 9; 11] [0x30; 0x31; 0x32] (Some [100; 100; 100])
           GPIO_BCM 0x29 0%nat 17%nat
           (Ok (mkMultiSensor
                  [mkVL6180X 0x30 100; mkVL6180X 0x31 100;
                   mkVL6180X 0x32 100]))
           (prelude GPIO_BCM [10; 9; 11] []
            ++ [E_output [10] HIGH (Ok tt); E_sleep; E_VL6180X 0x29 0 (Ok tt);
                E_write_8 0x29 SUBORDINATE_ADDR_REG 0x30 (Ok tt);
                E_output [9] HIGH (Ok tt); E_sleep; E_VL6180X 0x29 0 (Ok tt);
                E_write_8 0x29 SUBORDINATE_ADDR_REG 0x31 (Ok tt);
                E_output [11] HIGH (Ok tt); E_sleep; E_VL6180X 0x29 0 (Ok tt);
                E_write_8 0x29 SUBORDINATE_ADDR_REG 0x32 (Ok tt)]
            ++ [E_VL6180X 0x30 100 (Ok tt); E_VL6180X 0x31 100 (Ok tt);
                E_VL6180X 0x32 100 (Ok tt)])
           []
           _ Hce
           (prelude GPIO_BCM [10; 9; 11] []
            ++ [E_output [10] HIGH (Ok tt); E_sleep; E_VL6180X 0x29 0 (Ok tt);
                E_write_8 0x29 SUBORDINATE_ADDR_REG 0x30 (Ok tt);
                E_output [9] HIGH (Ok tt)])
           [E_sleep; E_VL6180X 0x29 0 (Ok tt);
            E_write_8 0x29 SUBORDINATE_ADDR_REG 0x31 (Ok tt);
            E_output [11] HIGH (Ok tt); E_sleep; E_VL6180X 0x29 0 (Ok tt);
            E_write_8 0x29 SUBORDINATE_ADDR_REG 0x32 (Ok tt);
            E_VL6180X 0x30 100 (Ok tt); E_VL6180X 0x31 100 (Ok tt);
            E_VL6180X 0x32 100 (Ok tt)]
           (0x31, 9) (0x31, 9) _ _ _ _ _ _).
  - vm_compute. reflexivity.
  - reflexivity.
  - simpl. intros e He.
    repeat (destruct He as [<- | He]; [reflexivity |]). contradiction.
  - simpl. auto.
  - simpl. auto.
  - reflexivity.
  - reflexivity.
Defined.

Lemma failed_write_does_not_stop_sequencing_witness :
  exists offs busy c before after tp1 tp2 tf,
    let failed :=
      [E_output [c] HIGH (Ok tt); E_sleep; E_VL6180X 0x29 0 (Ok tt);
       E_write_8 0x29 SUBORDINATE_ADDR_REG 0x30 (Raise OSError)] in
    Some [100; 100] = Some offs
    /\ working_address [0x30; 0x31] [10; 9] busy = before ++ (0x30, c) :: after
    /\ first_write_fails_log
       = prelude GPIO_BCM [10; 9] busy ++ (tp1 ++ failed ++ tp2) ++ tf
    /\ loop_trace 0x29 after (Ok tt) tp2
    /\ (forall a2 c2, In (a2, c2) after ->
        In (E_output [c2] HIGH (Ok tt)) tp2)
    /\ (forall p q, tp2 ++ tf = p ++ q ->
        asserted (prelude GPIO_BCM [10; 9] busy ++ tp1 ++ failed ++ p) c
        = true)
    /\ opened tf = combine [0x30; 0x31] offs
    /\ sensors (mkMultiSensor [mkVL6180X 0x30 100; mkVL6180X 0x31 100])
       = map sensor_of (opened_ok tf).
Proof.
  apply (failed_write_does_not_stop_sequencing (bench first_write_fails)
           [10; 9] [0x30; 0x31] (Some [100; 100]) GPIO_BCM 0x29
           0%nat 13%nat
           (mkMultiSensor [mkVL6180X 0x30 100; mkVL6180X 0x31 100])
           first_write_fails_log 0x30).
  - vm_compute. reflexivity.
  - simpl. auto 10.
Defined.

(** ** Entries the scan found, entries that share an address *)

Lemma nth_error_combine_In {A B} (l1 : list A) (l2 : list B) k a b :
  nth_error l1 k = Some a -> nth_error l2 k = Some b ->
  In (a, b) (combine l1 l2).
Proof.
  revert l1 l2. induction k as [| k IH]; intros [| x l1] [| y l2];
    simpl; try discriminate.
  - intros [= ->] [= ->]. auto.
  - intros H1 H2. right. apply IH; assumption.
Qed.

Lemma opened_ok_In t a o :
  In (E_VL6180X a o (Ok tt)) t -> In (a, o) (opened_ok t).
Proof.
  induction t as [| e t IH]; simpl; [auto |].
  intros [-> | Hin].
  - simpl. auto.
  - destruct e as [| | | | | | a' o' [[] | ?] | | | | |]; simpl; auto.
Qed.

Lemma NoDup_combine_lines (addrs ce : list Z) :
  NoDup ce -> NoDup (map snd (combine addrs ce)).
Proof.
  revert ce. induction addrs as [| a addrs IH]; intros [| c ce] Hce;
    simpl; try constructor.
  - inversion Hce as [| ? ? Hnotin Hce']; subst. intros Hin.
    apply in_map_iff in Hin. destruct Hin as ([a' c'] & E & Hin).
    simpl in E. subst c'. apply Hnotin. eapply in_combine_r. eassumption.
  - inversion Hce; subst. auto.
Qed.

(** The log of a call in which the scan answered [busy]. *)
Lemma run_trace_scanned ce addrs offs mode d r t busy :
  run_trace ce addrs offs mode d r t ->
  In (E_scan (Ok busy)) t ->
  exists tp tf,
    t = prelude mode ce busy ++ tp ++ tf
    /\ (forall e, In e tp ->
        loop_event d (working_address addrs ce busy) e)
    /\ (forall e, In e tf -> inst_event (combine addrs offs) e).
Proof.
  assert (Hscan : forall busy' tp tf,
    (forall e, In e tp ->
       loop_event d (working_address addrs ce busy') e) ->
    (forall e, In e tf -> inst_event (combine addrs offs) e) ->
    In (E_scan (Ok busy)) (prelude mode ce busy' ++ tp ++ tf) ->
    busy' = busy).
  { intros busy' tp tf Hp Hf Hin. cbn [prelude app] in Hin.
    simpl in Hin.
    repeat (destruct Hin as [E | Hin]; [try discriminate E |]).
    - injection E as ->. reflexivity.
    - apply in_app_or in Hin. destruct Hin as [Hin | Hin].
      + destruct (Hp _ Hin)
          as [E | [(? & E) | (? & ? & ? & _ & [E | [E | E]])]]; discriminate E.
      + destruct (Hf _ Hin) as (? & ? & ? & _ & E). discriminate E. }
  intros Hrun Hin.
  destruct Hrun as [e | e | e | e | e | busy' e tp Hl | busy' tp r tf Hl Hi];
    try (simpl in Hin;
         repeat (destruct Hin as [E | Hin]; [discriminate E |]);
         contradiction).
  - assert (Hp := loop_trace_events _ _ _ _ Hl).
    assert (E : busy' = busy).
    { apply (Hscan busy' tp []); [exact Hp | intros ? [] |].
      rewrite app_nil_r. exact Hin. }
    subst busy'. exists tp, []. rewrite app_nil_r.
    repeat split; [exact Hp | intros ? []].
  - assert (Hp := loop_trace_events _ _ _ _ Hl).
    assert (Hf := inst_trace_events _ _ _ _ Hi).
    assert (E : busy' = busy) by (apply (Hscan busy' tp tf); assumption).
    subst busy'. exists tp, tf. auto.
Qed.

(** C4, amended.  For an input entry (line [c], address [a]) whose
    address the scan reported: no write of [a] to the address register is
    issued during the call; line [c] is never driven high, provided that
    every input entry on line [c] has an address the scan reported (so in
    particular when the enable lines are distinct); and when the call
    returns, the second loop has opened a driver at [a] with the offset
    [o] of the entry, and the sensor is in the returned collection if that
    driver opened. *)
Theorem live_address_is_not_resequenced
    (hw : Hardware) (ce addrs : list Z) (offsets : option (list Z))
    (mode d : Z) (w w' : World hw) (r : result MultiSensor)
    (t : list event) (busy : list Z) (k : nat) (c a : Z) :
  __init__ hw ce addrs offsets mode d w = (r, w', t) ->
  In (E_scan (Ok busy)) t ->
  nth_error ce k = Some c ->
  nth_error addrs k = Some a ->
  contains a busy = true ->
  (forall e, In e t -> is_address_write a e = false)
  /\ ((forall a', In (a', c) (combine addrs ce) ->
       contains a' busy = true) ->
      forall e, In e t -> raises_high c e = false)
  /\ (forall self, r = Ok self ->
      exists offs o tp tf,
        offsets = Some offs
        /\ nth_error offs k = Some o
        /\ t = prelude mode ce busy ++ tp ++ tf
        /\ In (a, o) (opened tf)
        /\ (In (E_VL6180X a o (Ok tt)) tf ->
            In (mkVL6180X a o) (sensors self))).
Proof.
  intros H Hscan Hc Ha Hbusy.
  assert (Hdev : In (a, c) (combine addrs ce))
    by (eapply nth_error_combine_In; eassumption).
  assert (Hrun := init_run hw _ _ _ _ _ _ _ _ _ H).
  destruct Hrun as [(_ & _ & ->) | (offs & -> & Hcfg & Hrun)];
    [contradiction |].
  destruct (run_trace_scanned _ _ _ _ _ _ _ _ Hrun Hscan)
    as (tp & tf & Ht & Hp & Hf).
  split; [| split].
  - intros e He. rewrite Ht in He.
    apply in_app_or in He. destruct He as [He | He].
    { simpl in He.
      repeat (destruct He as [<- | He]; [reflexivity |]). contradiction. }
    apply in_app_or in He. destruct He as [He | He].
    + destruct (Hp e He)
        as [-> | [(r0 & ->) | (a' & c' & r0 & Hac & [-> | [-> | ->]])]];
        try reflexivity.
      cbn [is_address_write]. rewrite Z.eqb_refl. cbn [andb].
      destruct (Z.eqb_spec a' a) as [-> | Hne]; [| reflexivity].
      apply working_address_from in Hac. destruct Hac as [_ Hac].
      congruence.
    + destruct (Hf e He) as (? & ? & ? & _ & ->). reflexivity.
  - intros Hline e He. rewrite Ht in He.
    apply in_app_or in He. destruct He as [He | He].
    { simpl in He.
      repeat (destruct He as [<- | He]; [reflexivity |]). contradiction. }
    apply in_app_or in He. destruct He as [He | He].
    + destruct (Hp e He)
        as [-> | [(r0 & ->) | (a' & c' & r0 & Hac & [-> | [-> | ->]])]];
        try reflexivity.
      cbn [raises_high].
      destruct (contains c [c']) eqn:Hcc; [exfalso | reflexivity].
      apply contains_In in Hcc. destruct Hcc as [-> | []].
      apply working_address_from in Hac. destruct Hac as [Hin Hnb].
      rewrite (Hline a' Hin) in Hnb. discriminate Hnb.
    + destruct (Hf e He) as (? & ? & ? & _ & ->). reflexivity.
  - intros self ->. clear tp tf Ht Hp Hf.
    inversion Hrun as [| | | | | | busy' tp res tf Hl Hi Hr Ht].
    destruct res as [l |]; [| discriminate]. injection Hr as <-.
    assert (E : busy' = busy).
    { rewrite <- Ht in Hscan. cbn [prelude app] in Hscan. simpl in Hscan.
      repeat (destruct Hscan as [E | Hscan]; [try discriminate E |]).
      - injection E as ->. reflexivity.
      - apply in_app_or in Hscan. destruct Hscan as [Hin | Hin].
        + destruct (loop_trace_events _ _ _ _ Hl _ Hin)
            as [E | [(? & E) | (? & ? & ? & _ & [E | [E | E]])]]; discriminate E.
        + destruct (inst_trace_events _ _ _ _ Hi _ Hin)
            as (? & ? & ? & _ & E). discriminate E. }
    subst busy'.
    apply config_ok_spec in Hcfg. destruct Hcfg as (_ & Hlen & _).
    destruct (nth_error offs k) as [o |] eqn:Ho.
    2:{ apply nth_error_None in Ho.
        assert (k < length ce)%nat
          by (apply nth_error_Some; congruence). lia. }
    exists offs, o, tp, tf. repeat split; trivial.
    + rewrite (inst_trace_opened _ _ _ _ Hi _ eq_refl).
      eapply nth_error_combine_In; eassumption.
    + intros Hopen. simpl.
      rewrite (inst_trace_result _ _ _ _ Hi _ eq_refl). simpl.
      apply (in_map sensor_of _ (a, o)). apply opened_ok_In. exact Hopen.
Qed.

Lemma live_address_is_not_resequenced_witness :
  (forall e, In e first_two_live_log -> is_address_write 0x30 e = false)
  /\ (forall e, In e first_two_live_log -> raises_high 10 e = false)
  /\ In (mkVL6180X 0x30 100)
       [mkVL6180X 0x30 100; mkVL6180X 0x31 100; mkVL6180X 0x32 100].
Proof.
  destruct (live_address_is_not_resequenced (bench first_two_live)
              [10; 9; 11] [0x30; 0x31; 0x32] (Some [100; 100; 100])
              GPIO_BCM 0x29 0%nat 11%nat
              (Ok (mkMultiSensor
                     [mkVL6180X 0x30 100; mkVL6180X 0x31 100;
                      mkVL6180X 0x32 100]))
              first_two_live_log [0x30; 0x31] 0%nat 10 0x30)
    as (H1 & H2 & H3).
  - vm_compute. reflexivity.
  - simpl. auto 10.
  - reflexivity.
  - reflexivity.
  - reflexivity.
  - split; [exact H1 |]. split.
    + apply H2. simpl. intros a' [E | [E | [E | []]]];
        injection E as <-; try reflexivity; discriminate.
    + destruct (H3 _ eq_refl) as (offs & o & tp & tf & Eo & Hk & _ & _ & _).
      injection Eo as <-. injection Hk as <-. simpl. auto.
Defined.

(** C4, as stated, fails when an enable line is shared: the address 0x30
    of the first entry answers the scan, and its enable line 5 is
    asserted all the same, for the second entry, which is on the same
    line and pending. *)
Lemma shared_line_of_a_live_sensor_is_asserted :
  exists self w' t,
    __init__ (bench first_live) [5; 5] [0x30; 0x31] (Some [0; 0]) GPIO_BCM
      0x29 0%nat = (Ok self, w', t)
    /\ In (E_scan (Ok [0x30])) t
    /\ nth_error [5; 5] 0 = Some 5
    /\ nth_error [0x30; 0x31] 0 = Some 0x30
    /\ contains 0x30 [0x30] = true
    /\ In (E_output [5] HIGH (Ok tt)) t.
Proof.
  eexists. eexists. eexists. split; [vm_compute; reflexivity |].
  repeat split; simpl; auto 10.
Qed.

(** C9, as stated, fails when an enable line is shared: entries 0 and 1
    share address 0x30, which the scan did not report; entry 1, the last
    of them, is on line 9, and entry 0 is on line 5, which is asserted
    all the same, for the pending entry 2 on the same line. *)
Lemma earlier_duplicate_on_a_shared_line_is_powered :
  exists self w' t,
    __init__ (bench all_fine) [5; 9; 5] [0x30; 0x30; 0x31]
      (Some [0; 0; 0]) GPIO_BCM 0x29 0%nat = (Ok self, w', t)
    /\ In (E_scan (Ok [])) t
    /\ combine [0x30; 0x30; 0x31] [5; 9; 5]
       = [(0x30, 5)] ++ (0x30, 9) :: [(0x31, 5)]
    /\ ~ In 0x30 (map fst [(0x31, 5)])
    /\ In (E_output [5] HIGH (Ok tt)) t.
Proof.
  eexists. eexists. eexists. split; [vm_compute; reflexivity |].
  split; [simpl; auto 10 |]. split; [reflexivity |].
  split; [simpl; intros [E | []]; discriminate E | simpl; auto 20].
Qed.

(** C9, amended.  When the scan did not report address [a] and the last input
    entry with address [a] is on line [c] (the entries before it on the
    list [l1], those after it on [l2]), a call that returns has run one
    turn of the first loop for [a], on line [c]: line [c] is asserted and
    the write of [a] is issued, once the temporary driver has opened; no
    other write of [a] is issued; and the second loop opens one driver per
    input entry, in order.  With distinct enable lines (and only this part
    needs them), the line of an earlier entry with address [a] is never
    driven high. *)
Theorem shared_address_enables_the_last_entry_only
    (hw : Hardware) (ce addrs : list Z) (offsets : option (list Z))
    (mode d : Z) (w w' : World hw) (self : MultiSensor) (t : list event)
    (busy : list Z) (l1 l2 : list (Z * Z)) (a c : Z) :
  __init__ hw ce addrs offsets mode d w = (Ok self, w', t) ->
  In (E_scan (Ok busy)) t ->
  combine addrs ce = l1 ++ (a, c) :: l2 ->
  ~ In a (map fst l2) ->
  contains a busy = false ->
  exists offs tp1 turn tp2 tf,
    offsets = Some offs
    /\ t = prelude mode ce busy ++ (tp1 ++ turn ++ tp2) ++ tf
    /\ turn_trace d a c (Ok tt) turn
    /\ (In (E_VL6180X d 0 (Ok tt)) turn ->
        exists r, In (E_write_8 d SUBORDINATE_ADDR_REG a r) turn)
    /\ (forall e, In e (tp1 ++ tp2) -> is_address_write a e = false)
    /\ (NoDup ce ->
        forall c', In (a, c') l1 ->
        forall e, In e t -> raises_high c' e = false)
    /\ opened tf = combine addrs offs.
Proof.
  intros H Hscan Hsplit Hlast Hbusy.
  apply init_returns in H.
  destruct H as (offs & busy' & tp & tf & -> & Hcfg & -> & Hl & Hi).
  assert (Hevf := inst_trace_events _ _ _ _ Hi).
  assert (E : busy' = busy).
  { cbn [prelude app] in Hscan. simpl in Hscan.
    repeat (destruct Hscan as [E | Hscan]; [try discriminate E |]).
    - injection E as ->. reflexivity.
    - apply in_app_or in Hscan. destruct Hscan as [Hin | Hin].
      + destruct (loop_trace_events _ _ _ _ Hl _ Hin)
          as [E | [(? & E) | (? & ? & ? & _ & [E | [E | E]])]]; discriminate E.
      + destruct (Hevf _ Hin) as (? & ? & ? & _ & E). discriminate E. }
  subst busy'.
  assert (Hac := working_address_last busy addrs ce l1 l2 a c
                   Hsplit Hlast Hbusy).
  assert (Hnd := working_address_NoDup addrs ce busy).
  assert (Hev := loop_trace_events _ _ _ _ Hl).
  destruct (in_split _ _ Hac) as (before & after & Hitems).
  rewrite Hitems in Hl. apply loop_trace_split in Hl.
  destruct Hl as (tp1 & turn & tp2 & -> & H1 & Ht & H2).
  exists offs, tp1, turn, tp2, tf.
  split; [reflexivity |]. split; [reflexivity |]. split; [exact Ht |].
  split; [| split; [| split]].
  - inversion Ht; subst; simpl; intros Hin;
      repeat (destruct Hin as [Hin | Hin]; [try discriminate Hin |]);
      try contradiction; eexists; eauto 6.
  - rewrite Hitems, map_app in Hnd. simpl in Hnd.
    assert (Hnotin := NoDup_remove_2 _ _ _ Hnd).
    assert (Hother : forall items tq,
      (forall x, In x items -> In (fst x) (map fst before ++ map fst after)) ->
      (forall e, In e tq -> loop_event d items e) ->
      forall e, In e tq -> is_address_write a e = false).
    { intros items tq Hsub Hq e He.
      destruct (Hq e He)
        as [-> | [(r0 & ->) | (a' & c' & r0 & Hin & [-> | [-> | ->]])]];
        try reflexivity.
      cbn [is_address_write]. rewrite Z.eqb_refl. cbn [andb].
      destruct (Z.eqb_spec a' a) as [-> | Hne]; [| reflexivity].
      elim Hnotin. apply (Hsub _ Hin). }
    intros e He. apply in_app_or in He. destruct He as [He | He].
    + apply (Hother before tp1); try assumption.
      * intros x Hx. apply in_or_app. left. apply in_map. exact Hx.
      * apply (loop_trace_events _ _ _ _ H1).
    + apply (Hother after tp2); try assumption.
      * intros x Hx. apply in_or_app. right. apply in_map. exact Hx.
      * apply (loop_trace_events _ _ _ _ H2).
  - intros Hce c' Hdup e He.
    assert (Hlines := NoDup_combine_lines addrs ce Hce).
    rewrite Hsplit, map_app in Hlines. simpl in Hlines.
    assert (Hc' : c' <> c).
    { intros ->. apply (NoDup_remove_2 _ _ _ Hlines).
      apply in_or_app. left. apply (in_map snd _ _ Hdup). }
    apply in_app_or in He. destruct He as [He | He].
    { simpl in He.
      repeat (destruct He as [<- | He]; [reflexivity |]). contradiction. }
    apply in_app_or in He. destruct He as [He | He].
    + destruct (Hev e He)
        as [-> | [(r0 & ->) | (a' & c'' & r0 & Hin & [-> | [-> | ->]])]];
        try reflexivity.
      cbn [raises_high].
      destruct (contains c' [c'']) eqn:Hcc; [exfalso | reflexivity].
      apply contains_In in Hcc. destruct Hcc as [-> | []].
      assert (Hin' := Hin). apply working_address_from in Hin'.
      destruct Hin' as [Hin' _].
      assert (Ea : a' = a).
      { apply (combine_line_unique addrs ce a' a c' Hce Hin').
        rewrite Hsplit. apply in_or_app. left. exact Hdup. }
      subst a'. apply Hc'.
      eapply NoDup_keys_unique; eassumption.
    + destruct (Hevf e He) as (? & ? & ? & _ & ->). reflexivity.
  - eapply inst_trace_opened; [eassumption | reflexivity].
Qed.

Lemma shared_address_enables_the_last_entry_only_witness :
  exists offs tp1 turn tp2 tf,
    Some [100; 101; 102] = Some offs
    /\ shared_address_log
       = prelude GPIO_BCM [10; 9; 11] [] ++ (tp1 ++ turn ++ tp2) ++ tf
    /\ turn_trace 0x29 0x30 9 (Ok tt) turn
    /\ (In (E_VL6180X 0x29 0 (Ok tt)) turn ->
        exists r, In (E_write_8 0x29 SUBORDINATE_ADDR_REG 0x30 r) turn)
    /\ (forall e, In e (tp1 ++ tp2) -> is_address_write 0x30 e = false)
    /\ (forall c', In (0x30, c') [(0x30, 10)] ->
        forall e, In e shared_address_log -> raises_high c' e = false)
    /\ opened tf = combine [0x30; 0x30; 0x32] offs.
Proof.
  destruct (shared_address_enables_the_last_entry_only (bench all_fine)
              [10; 9; 11] [0x30; 0x30; 0x32] (Some [100; 101; 102])
              GPIO_BCM 0x29 0%nat 14%nat
              (mkMultiSensor
                 [mkVL6180X 0x30 100; mkVL6180X 0x30 101;
                  mkVL6180X 0x32 102])
              shared_address_log [] [(0x30, 10)] [(0x32, 11)] 0x30 9)
    as (offs & tp1 & turn & tp2 & tf & H1 & H2 & H3 & H4 & H5 & H6 & H7).
  - vm_compute. reflexivity.
  - simpl. auto 10.
  - reflexivity.
  - simpl. lia.
  - reflexivity.
  - exists offs, tp1, turn, tp2, tf.
    repeat (split; [assumption |]). split; [| exact H7].
    apply H6. repeat constructor; simpl; lia.
Defined.

(** * Further properties of the code *)

(** ** The checks of the constructor, both ways *)

(** X1. Given a list of offsets, the constructor raises [AssertionError]
    before any external call exactly when its arguments are not well
    formed: the three lists have the same length, every target address
    and the default address are in 0..127, and the numbering scheme is
    [GPIO.BCM] or [GPIO.BOARD]. *)
Theorem constructor_rejects_exactly_the_ill_formed
    (hw : Hardware) (ce addrs offs : list Z) (mode d : Z) (w : World hw) :
  __init__ hw ce addrs (Some offs) mode d w = (Raise AssertionError, w, [])
  <->
  ~ (length ce = length addrs
     /\ length ce = length offs
     /\ (forall a, In a addrs -> 0 <= a <= 127)
     /\ (mode = GPIO_BCM \/ mode = GPIO_BOARD)
     /\ 0 <= d <= 127).
Proof.
  rewrite <- config_ok_spec. split.
  - intros H Hc. eapply run_trace_not_nil; [| reflexivity].
    eapply init_accepted; eassumption.
  - intros Hc. apply init_rejected.
    destruct (config_ok ce addrs offs mode d); [elim Hc |]; reflexivity.
Qed.

(** ** A query at a valid index *)

(** X2. On a collection of [n] sensors, a query at an index [i] with
    [0 <= i < n] makes one call, to the sensor at position [i], and
    returns its reading, or [None] if the read raises. *)
Theorem query_reads_the_indexed_sensor
    (hw : Hardware) (self : MultiSensor) (i gain : Z) (w : World hw) :
  0 <= i < Z.of_nat (length (sensors self)) ->
  exists s,
    nth_error (sensors self) (Z.to_nat i) = Some s
    /\ get_range hw self i w
       = (let (r, w') := hw_range hw s w in
          (match r with Ok v => Ok (Some v) | Raise _ => Ok None end,
           w', [E_range s r]))
    /\ get_lux hw self i gain w
       = (let (r, w') := hw_read_lux hw s gain w in
          (match r with Ok v => Ok (Some v) | Raise _ => Ok None end,
           w', [E_read_lux s gain (is_ok r)]))
    /\ get_range_status hw self i w
       = (let (r, w') := hw_range_status hw s w in
          (match r with Ok v => Ok (Some v) | Raise _ => Ok None end,
           w', [E_range_status s r])).
Proof.
  intros Hi. destruct (getitem_in_range (sensors self) i Hi) as (s & Hn & Hs).
  exists s. split; [exact Hn |].
  rewrite get_range_cases, get_lux_cases, get_range_status_cases, Hs.
  destruct (hw_range hw s w) as [[v1 | e1] w1];
    destruct (hw_read_lux hw s gain w) as [[v2 | e2] w2];
    destruct (hw_range_status hw s w) as [[v3 | e3] w3];
    repeat split.
Qed.

Lemma query_reads_the_indexed_sensor_witness :
  get_range (bench all_fine)
    (mkMultiSensor [mkVL6180X 0x30 0; mkVL6180X 0x31 0]) 1 0%nat
  = (Ok (Some 42), 1%nat, [E_range (mkVL6180X 0x31 0) (Ok 42)]).
Proof.
  destruct (query_reads_the_indexed_sensor (bench all_fine)
              (mkMultiSensor [mkVL6180X 0x30 0; mkVL6180X 0x31 0]) 1 0 0%nat)
    as (s & Hs & Hr & _).
  - simpl. lia.
  - injection Hs as <-. exact Hr.
Defined.

(** ** The dict of the pending entries, as a whole *)

Lemma dict_set_fresh (k v : Z) (d : list (Z * Z)) :
  ~ In k (map fst d) -> dict_set k v d = d ++ [(k, v)].
Proof.
  induction d as [| [k' v'] d IH]; simpl; intros Hk; [reflexivity |].
  destruct (Z.eqb_spec k k') as [-> | Hne]; [elim Hk; auto |].
  rewrite IH by tauto. reflexivity.
Qed.

Lemma NoDup_combine_addresses (addrs ce : list Z) :
  NoDup addrs -> NoDup (map fst (combine addrs ce)).
Proof.
  revert ce. induction addrs as [| a addrs IH]; intros [| c ce] Ha;
    simpl; try constructor.
  - inversion Ha as [| ? ? Hnotin Ha']; subst. intros Hin.
    apply in_map_iff in Hin. destruct Hin as ([a' c'] & E & Hin).
    simpl in E. subst a'. apply Hnotin. eapply in_combine_l. eassumption.
  - inversion Ha; subst. auto.
Qed.

(** Distinct keys are appended one after the other. *)
Lemma pending_fold_distinct (busy : list Z) (l : list (Z * Z)) :
  NoDup (map fst l) ->
  forall d,
    (forall k, In k (map fst l) -> ~ In k (map fst d)) ->
    fold_left
      (fun d ac => if contains (fst ac) busy then d
                   else dict_set (fst ac) (snd ac) d) l d
    = d ++ filter (is_pending busy) l.
Proof.
  induction l as [| [a c] l IH]; simpl; intros Hl d Hd.
  - rewrite app_nil_r. reflexivity.
  - inversion Hl as [| ? ? Hnotin Hl']; subst.
    unfold is_pending at 1. simpl.
    destruct (contains a busy); simpl.
    + apply IH; [exact Hl' |]. intros k Hk. apply Hd. auto.
    + rewrite dict_set_fresh by (apply Hd; auto).
      rewrite IH; [rewrite <- app_assoc; reflexivity | exact Hl' |].
      intros k Hk. rewrite map_app, in_app_iff. simpl.
      intros [Hin | [E | []]].
      * apply (Hd k); auto.
      * subst k. contradiction.
Qed.

(** X3. With distinct target addresses, the entries the first loop goes
    through are the input entries whose address the scan did not report,
    in the order of the input, each with its own enable line. *)
Theorem pending_entries_follow_the_input_order
    (addrs ce busy : list Z) :
  NoDup addrs ->
  working_address addrs ce busy
  = filter (is_pending busy) (combine addrs ce).
Proof.
  intros Ha. unfold working_address.
  rewrite (pending_fold_distinct busy (combine addrs ce)
             (NoDup_combine_addresses addrs ce Ha) []).
  - reflexivity.
  - intros k _ [].
Qed.

Lemma pending_entries_follow_the_input_order_witness :
  working_address [0x30; 0x31; 0x32] [10; 9; 11] [0x31]
  = filter (is_pending [0x31]) (combine [0x30; 0x31; 0x32] [10; 9; 11]).
Proof.
  apply pending_entries_follow_the_input_order.
  repeat constructor; simpl; lia.
Defined.

(** X4. When several input entries have the same address and the scan
    did not report it, the dict of pending entries has one item for that
    address, with the enable line of the last of them; every item of the
    dict is an input entry whose address the scan did not report, and no
    address has two items. *)
Theorem pending_dict_keeps_the_last_line
    (addrs ce busy : list Z) (l1 l2 : list (Z * Z)) (a c : Z) :
  combine addrs ce = l1 ++ (a, c) :: l2 ->
  ~ In a (map fst l2) ->
  contains a busy = false ->
  In (a, c) (working_address addrs ce busy)
  /\ (forall c', In (a, c') (working_address addrs ce busy) -> c' = c)
  /\ NoDup (map fst (working_address addrs ce busy))
  /\ (forall a' c', In (a', c') (working_address addrs ce busy) ->
      In (a', c') (combine addrs ce) /\ contains a' busy = false).
Proof.
  intros Hsplit Hlast Hbusy.
  assert (Hin := working_address_last busy addrs ce l1 l2 a c
                   Hsplit Hlast Hbusy).
  assert (Hnd := working_address_NoDup addrs ce busy).
  split; [exact Hin |]. split; [| split; [exact Hnd |]].
  - intros c' Hin'. eapply NoDup_keys_unique; eassumption.
  - intros a' c'. apply working_address_from.
Qed.

Lemma pending_dict_keeps_the_last_line_witness :
  In (0x30, 9) (working_address [0x30; 0x30; 0x32] [10; 9; 11] [])
  /\ (forall c',
      In (0x30, c') (working_address [0x30; 0x30; 0x32] [10; 9; 11] []) ->
      c' = 9).
Proof.
  destruct (pending_dict_keeps_the_last_line
              [0x30; 0x30; 0x32] [10; 9; 11] []
              [(0x30, 10)] [(0x32, 11)] 0x30 9) as (H1 & H2 & _).
  - reflexivity.
  - simpl. lia.
  - reflexivity.
  - split; assumption.
Defined.

(** ** Where a call of the constructor stops *)

Lemma stops_at_last (x : exn) (t' : list event) (ev : event) :
  raised ev = Some x -> recovered ev = false ->
  forallb recovered t' = true -> stops_at x (t' ++ [ev]).
Proof. intros H1 H2 H3. exists t', ev. auto. Qed.

Lemma stops_at_app (x : exn) (t1 t2 : list event) :
  forallb recovered t1 = true -> stops_at x t2 -> stops_at x (t1 ++ t2).
Proof.
  intros H1 (t' & ev & -> & Hr & Hn & Hp).
  exists (t1 ++ t'), ev. rewrite app_assoc. repeat split; trivial.
  rewrite forallb_app, H1, Hp. reflexivity.
Qed.

Lemma not_OSError (x : exn) : x <> OSError -> isinstance_OSError x = false.
Proof. destruct x; intros H; try reflexivity. elim H. reflexivity. Qed.

Lemma turn_trace_goes_on d a c t :
  turn_trace d a c (Ok tt) t -> forallb recovered t = true.
Proof. inversion 1; reflexivity. Qed.

Lemma turn_trace_stops d a c x t :
  turn_trace d a c (Raise x) t -> stops_at x t.
Proof.
  inversion 1 as [e | | e Hne | | | e Hne | Hs]; subst.
  - apply (stops_at_last x []); reflexivity.
  - apply (stops_at_last x [E_output [c] HIGH (Ok tt); E_sleep]);
      [reflexivity | apply not_OSError, Hne | reflexivity].
  - apply (stops_at_last x
             [E_output [c] HIGH (Ok tt); E_sleep; E_VL6180X d 0 (Ok tt)]);
      [reflexivity | apply not_OSError, Hne | reflexivity].
  - apply (stops_at_last ValueError []); reflexivity.
Qed.

Lemma loop_trace_goes_on d items t :
  loop_trace d items (Ok tt) t -> forallb recovered t = true.
Proof.
  intros H. remember (Ok tt) as r eqn:Hr.
  induction H as [| a c rest e t Ht | a c rest t1 r t2 Ht Hl IH].
  - reflexivity.
  - discriminate.
  - rewrite forallb_app, (turn_trace_goes_on _ _ _ _ Ht). apply IH, Hr.
Qed.

Lemma loop_trace_stops d items x t :
  loop_trace d items (Raise x) t -> stops_at x t.
Proof.
  intros H. remember (Raise x) as r eqn:Hr.
  induction H as [| a c rest e t Ht | a c rest t1 r t2 Ht Hl IH].
  - discriminate.
  - injection Hr as ->. eapply turn_trace_stops. eassumption.
  - apply stops_at_app; [eapply turn_trace_goes_on; eassumption |].
    apply IH, Hr.
Qed.

Lemma inst_trace_stops l acc x t :
  inst_trace l acc (Raise x) t -> stops_at x t.
Proof.
  intros H. remember (Raise x) as r eqn:Hr.
  induction H as [acc | a o rest acc r t _ IH | a o rest acc r t _ IH
                 | a o rest acc e Hne].
  - discriminate.
  - apply (stops_at_app x [E_VL6180X a o (Ok tt)]); [reflexivity |].
    apply IH, Hr.
  - apply (stops_at_app x [E_VL6180X a o (Raise OSError)]); [reflexivity |].
    apply IH, Hr.
  - injection Hr as ->. apply (stops_at_last x []);
      [reflexivity | apply not_OSError, Hne | reflexivity].
Qed.

(** X5. When the constructor raises, it raises either [AssertionError]
    before any external call, or the exception of the last external call
    it made: that call is the first failure that is not recovered (every
    failure before it is an [OSError] of a driver opening or of a register
    write), nothing is called after it, and its exception reaches the
    caller unchanged.  So an exception of a driver other than [OSError]
    stops the sequencing of the remaining sensors. *)
Theorem constructor_stops_at_the_first_unrecovered_failure
    (hw : Hardware) (ce addrs : list Z) (offsets : option (list Z))
    (mode d : Z) (w w' : World hw) (x : exn) (t : list event) :
  __init__ hw ce addrs offsets mode d w = (Raise x, w', t) ->
  (x = AssertionError /\ w' = w /\ t = []) \/ stops_at x t.
Proof.
  intros H. apply init_run in H.
  destruct H as [(E & -> & ->) | (offs & _ & _ & Hrun)].
  - injection E as ->. left. auto.
  - right. unfold prelude in Hrun.
    inversion Hrun as [e | e | e | e | e | busy e tp Hl
                       | busy tp r tf Hl Hi Hr Ht]; subst.
    + apply (stops_at_last x []); reflexivity.
    + apply (stops_at_last x [E_setmode mode (Ok tt)]); reflexivity.
    + apply (stops_at_last x [E_setmode mode (Ok tt); E_setup ce (Ok tt)]);
        reflexivity.
    + apply (stops_at_last x
               [E_setmode mode (Ok tt); E_setup ce (Ok tt);
                E_output ce LOW (Ok tt)]); reflexivity.
    + apply (stops_at_last x
               [E_setmode mode (Ok tt); E_setup ce (Ok tt);
                E_output ce LOW (Ok tt); E_I2C (Ok tt)]); reflexivity.
    + apply stops_at_app; [reflexivity |].
      eapply loop_trace_stops. eassumption.
    + destruct r as [l | e]; [discriminate |]. injection Hr as ->.
      apply stops_at_app; [reflexivity |].
      apply stops_at_app; [eapply loop_trace_goes_on; eassumption |].
      eapply inst_trace_stops. eassumption.
Qed.

Lemma constructor_stops_at_the_first_unrecovered_failure_witness :
  (ValueError = AssertionError /\ 7%nat = 0%nat
   /\ prelude GPIO_BCM [10; 9] []
      ++ [E_output [10] HIGH (Ok tt); E_sleep;
          E_VL6180X 0x29 0 (Raise ValueError)] = [])
  \/ stops_at ValueError
       (prelude GPIO_BCM [10; 9] []
        ++ [E_output [10] HIGH (Ok tt); E_sleep;
            E_VL6180X 0x29 0 (Raise ValueError)]).
Proof.
  apply (constructor_stops_at_the_first_unrecovered_failure
           (bench no_device)
           [10; 9] [0x30; 0x31] (Some [0; 0]) GPIO_BCM 0x29 0%nat 7%nat).
  vm_compute. reflexivity.
Defined.

(** ** The order of the calls *)

Lemma prelude_comes_first mode ce busy rest p ev q :
  prelude mode ce busy ++ rest = p ++ ev :: q ->
  acts_on_sensor ev = true ->
  exists p', p = prelude mode ce busy ++ p'.
Proof.
  intros H Hev. apply app_eq_app in H.
  destruct H as (l & [[E1 E2] | [E1 E2]]).
  - destruct l as [| ev' l].
    + exists []. rewrite app_nil_r in E1. rewrite app_nil_r. auto.
    + injection E2 as <- _. exfalso.
      assert (Hin : In ev (prelude mode ce busy)).
      { rewrite E1. apply in_or_app. right. left. reflexivity. }
      simpl in Hin.
      repeat (destruct Hin as [<- | Hin]; [discriminate Hev |]).
      contradiction.
  - exists l. exact E1.
Qed.

(** X6. Whatever the hardware does, no sensor is acted upon (no enable
    line driven high, no driver opened, no register written) before the
    numbering scheme is set, all the enable lines are set up as outputs
    and driven low, the bus is opened and scanned, each of these calls
    having succeeded. *)
Theorem sensors_are_reset_and_the_bus_scanned_first
    (hw : Hardware) (ce addrs : list Z) (offsets : option (list Z))
    (mode d : Z) (w w' : World hw) (r : result MultiSensor)
    (t p q : list event) (ev : event) :
  __init__ hw ce addrs offsets mode d w = (r, w', t) ->
  t = p ++ ev :: q ->
  acts_on_sensor ev = true ->
  exists busy p', p = prelude mode ce busy ++ p'.
Proof.
  intros H Hp Hev. apply init_run in H.
  destruct H as [(_ & _ & ->) | (offs & _ & _ & Hrun)].
  - destruct p; discriminate Hp.
  - assert (Hin : In ev t) by (rewrite Hp; apply in_elt).
    destruct Hrun as [e | e | e | e | e | busy e tp Hl | busy tp r tf Hl Hi];
      try (exfalso; simpl in Hin;
           repeat (destruct Hin as [<- | Hin]; [discriminate Hev |]);
           contradiction).
    + exists busy. eapply prelude_comes_first; eassumption.
    + exists busy. eapply prelude_comes_first; eassumption.
Qed.

Lemma sensors_are_reset_and_the_bus_scanned_first_witness :
  exists busy p',
    prelude GPIO_BCM [10; 9] []
    ++ [E_output [10] HIGH (Ok tt); E_sleep; E_VL6180X 0x29 0 (Ok tt)]
    = prelude GPIO_BCM [10; 9] busy ++ p'.
Proof.
  apply (sensors_are_reset_and_the_bus_scanned_first
           (bench first_write_fails) [10; 9] [0x30; 0x31]
           (Some [100; 100]) GPIO_BCM 0x29 0%nat 13%nat
           (Ok (mkMultiSensor [mkVL6180X 0x30 100; mkVL6180X 0x31 100]))
           first_write_fails_log
           (prelude GPIO_BCM [10; 9] []
            ++ [E_output [10] HIGH (Ok tt); E_sleep;
                E_VL6180X 0x29 0 (Ok tt)])
           [E_output [9] HIGH (Ok tt); E_sleep; E_VL6180X 0x29 0 (Ok tt);
            E_write_8 0x29 SUBORDINATE_ADDR_REG 0x31 (Ok tt);
            E_VL6180X 0x30 100 (Ok tt); E_VL6180X 0x31 100 (Ok tt)]
           (E_write_8 0x29 SUBORDINATE_ADDR_REG 0x30 (Raise OSError))).
  - vm_compute. reflexivity.
  - reflexivity.
  - reflexivity.
Defined.

Lemma loop_event_sequencing d items e :
  loop_event d items e -> sequencing_call e = true.
Proof.
  intros [-> | [(r & ->) | (a & c & r & _ & [-> | [-> | ->]])]]; reflexivity.
Qed.

Lemma inst_event_sequencing l e : inst_event l e -> sequencing_call e = true.
Proof. intros (a & o & r & _ & ->). reflexivity. Qed.

(** X7. Once the lines have been driven low and the bus scanned, the
    constructor only drives single lines high, sleeps, opens drivers and
    writes the address register: it never drives a line low again (a
    sensor taken out of reset stays out of reset, also after a failure),
    never scans the bus a second time and writes no other register. *)
Theorem after_the_scan_only_sequencing_calls
    (hw : Hardware) (ce addrs : list Z) (offsets : option (list Z))
    (mode d : Z) (w w' : World hw) (r : result MultiSensor)
    (t rest : list event) (busy : list Z) :
  __init__ hw ce addrs offsets mode d w = (r, w', t) ->
  t = prelude mode ce busy ++ rest ->
  forallb sequencing_call rest = true.
Proof.
  intros H Ht. apply init_run in H.
  destruct H as [(_ & _ & ->) | (offs & _ & _ & Hrun)];
    [discriminate Ht |].
  destruct Hrun as [e | e | e | e | e | busy' e tp Hl | busy' tp r tf Hl Hi];
    try discriminate Ht.
  - unfold prelude in Ht. simpl in Ht. injection Ht as _ <-.
    apply forallb_forall. intros ev Hev.
    eapply loop_event_sequencing, loop_trace_events; eassumption.
  - unfold prelude in Ht. simpl in Ht. injection Ht as _ <-.
    apply forallb_forall. intros ev Hev.
    apply in_app_or in Hev. destruct Hev as [Hev | Hev].
    + eapply loop_event_sequencing, loop_trace_events; eassumption.
    + eapply inst_event_sequencing, inst_trace_events; eassumption.
Qed.

Lemma after_the_scan_only_sequencing_calls_witness :
  forallb sequencing_call
    [E_output [10] HIGH (Ok tt); E_sleep; E_VL6180X 0x29 0 (Ok tt);
     E_write_8 0x29 SUBORDINATE_ADDR_REG 0x30 (Raise OSError);
     E_output [9] HIGH (Ok tt); E_sleep; E_VL6180X 0x29 0 (Ok tt);
     E_write_8 0x29 SUBORDINATE_ADDR_REG 0x31 (Ok tt);
     E_VL6180X 0x30 100 (Ok tt); E_VL6180X 0x31 100 (Ok tt)] = true.
Proof.
  apply (after_the_scan_only_sequencing_calls
           (bench first_write_fails) [10; 9] [0x30; 0x31]
           (Some [100; 100]) GPIO_BCM 0x29 0%nat 13%nat
           (Ok (mkMultiSensor [mkVL6180X 0x30 100; mkVL6180X 0x31 100]))
           first_write_fails_log _ []).
  - vm_compute. reflexivity.
  - reflexivity.
Defined.

(** ** The two loops of a call, given the answer of the scan *)

Lemma scan_answer_unique mode ce d items l busy busy' tp tf :
  (forall e, In e tp -> loop_event d items e) ->
  (forall e, In e tf -> inst_event l e) ->
  In (E_scan (Ok busy)) (prelude mode ce busy' ++ tp ++ tf) ->
  busy' = busy.
Proof.
  intros Hp Hf Hin. unfold prelude in Hin. simpl in Hin.
  repeat (destruct Hin as [E | Hin]; [try discriminate E |]).
  - injection E as ->. reflexivity.
  - apply in_app_or in Hin. destruct Hin as [Hin | Hin].
    + destruct (Hp _ Hin)
        as [E | [(? & E) | (? & ? & ? & _ & [E | [E | E]])]]; discriminate E.
    + destruct (Hf _ Hin) as (? & ? & ? & _ & E). discriminate E.
Qed.

(** The log of a call in which the scan answered [busy]: the first loop
    over the pending entries, then what the second loop logged. *)
Lemma run_trace_parts ce addrs offs mode d r t busy :
  run_trace ce addrs offs mode d r t ->
  In (E_scan (Ok busy)) t ->
  exists rp tp tf,
    t = prelude mode ce busy ++ tp ++ tf
    /\ loop_trace d (working_address addrs ce busy) rp tp
    /\ (forall e, In e tf -> inst_event (combine addrs offs) e).
Proof.
  intros Hrun Hin.
  destruct Hrun as [e | e | e | e | e | busy' e tp Hl | busy' tp r tf Hl Hi];
    try (simpl in Hin;
         repeat (destruct Hin as [E | Hin]; [discriminate E |]);
         contradiction).
  - assert (E : busy' = busy).
    { apply (scan_answer_unique mode ce d
               (working_address addrs ce busy') (combine addrs offs)
               busy busy' tp []).
      - apply (loop_trace_events _ _ _ _ Hl).
      - intros ? [].
      - rewrite app_nil_r. exact Hin. }
    subst busy'. exists (Raise e), tp, []. rewrite app_nil_r.
    repeat split; [exact Hl | intros ? []].
  - assert (Hf := inst_trace_events _ _ _ _ Hi).
    assert (E : busy' = busy).
    { apply (scan_answer_unique mode ce d
               (working_address addrs ce busy') (combine addrs offs)
               busy busy' tp tf); trivial.
      apply (loop_trace_events _ _ _ _ Hl). }
    subst busy'. exists (Ok tt), tp, tf. auto.
Qed.

Lemma working_address_distinct (addrs ce busy : list Z) :
  NoDup addrs ->
  working_address addrs ce busy
  = filter (is_pending busy) (combine addrs ce).
Proof.
  intros Ha. unfold working_address.
  rewrite (pending_fold_distinct busy (combine addrs ce)
             (NoDup_combine_addresses addrs ce Ha) []).
  - reflexivity.
  - intros k _ [].
Qed.

(** ** The sensors a call leaves out of reset *)

(** X8. With distinct target addresses, when the constructor returns,
    the enable line of every input entry whose address the scan did not
    report is asserted: each such sensor is left out of reset, whether its
    reassignment and the opening of its driver succeeded or not. *)
Theorem pending_sensors_are_left_enabled
    (hw : Hardware) (ce addrs : list Z) (offsets : option (list Z))
    (mode d : Z) (w w' : World hw) (self : MultiSensor) (t : list event)
    (busy : list Z) (a c : Z) :
  __init__ hw ce addrs offsets mode d w = (Ok self, w', t) ->
  In (E_scan (Ok busy)) t ->
  NoDup addrs ->
  In (a, c) (combine addrs ce) ->
  contains a busy = false ->
  asserted t c = true.
Proof.
  intros H Hscan Ha Hin Hb. apply init_returns in H.
  destruct H as (offs & busy' & tp & tf & _ & _ & -> & Hl & Hi).
  assert (Hf := inst_trace_events _ _ _ _ Hi).
  assert (E : busy' = busy).
  { apply (scan_answer_unique mode ce d
             (working_address addrs ce busy') (combine addrs offs)
             busy busy' tp tf); trivial.
    apply (loop_trace_events _ _ _ _ Hl). }
  subst busy'.
  assert (Hitem : In (a, c) (working_address addrs ce busy)).
  { rewrite (working_address_distinct addrs ce busy Ha).
    apply filter_In. split; [exact Hin |].
    unfold is_pending. simpl. rewrite Hb. reflexivity. }
  destruct (in_split _ _ Hitem) as (before & after & Hsplit).
  rewrite Hsplit in Hl. apply loop_trace_split in Hl.
  destruct Hl as (tp1 & turn & tp2 & -> & _ & Ht & H2).
  assert (Hturn : exists rest,
    turn = E_output [c] HIGH (Ok tt) :: rest
    /\ forall e, In e rest -> drives c e <> Some LOW).
  { assert (Hev := turn_trace_events _ _ _ _ _ Ht).
    inversion Ht; subst; eexists; (split; [reflexivity |]);
      intros e He; apply (loop_event_never_lowers d [(a, c)]);
      apply Hev; right; exact He. }
  destruct Hturn as (rest & -> & Hrest).
  replace (prelude mode ce busy
           ++ (tp1 ++ (E_output [c] HIGH (Ok tt) :: rest) ++ tp2) ++ tf)
    with ((prelude mode ce busy ++ tp1)
          ++ (E_output [c] HIGH (Ok tt) :: rest) ++ (tp2 ++ tf))
    by (rewrite <- !app_assoc; reflexivity).
  apply (asserted_after_turn d after (combine addrs offs) _ c rest
           tp2 tf (tp2 ++ tf) []); trivial.
  - apply (loop_trace_events _ _ _ _ H2).
  - rewrite app_nil_r. reflexivity.
Qed.

Lemma pending_sensors_are_left_enabled_witness :
  asserted first_write_fails_log 10 = true.
Proof.
  apply (pending_sensors_are_left_enabled
           (bench first_write_fails) [10; 9] [0x30; 0x31]
           (Some [100; 100]) GPIO_BCM 0x29 0%nat 13%nat
           (mkMultiSensor [mkVL6180X 0x30 100; mkVL6180X 0x31 100])
           first_write_fails_log [] 0x30 10).
  - vm_compute. reflexivity.
  - simpl. auto 10.
  - repeat constructor; simpl; lia.
  - simpl. auto.
  - reflexivity.
Defined.

(** ** When every address already answers *)

Lemma working_address_all_busy (addrs ce busy : list Z) :
  (forall a, In a addrs -> contains a busy = true) ->
  working_address addrs ce busy = [].
Proof.
  intros H. destruct (working_address addrs ce busy) as [| [a c] l] eqn:E;
    [reflexivity | exfalso].
  assert (Hin : In (a, c) (working_address addrs ce busy))
    by (rewrite E; left; reflexivity).
  apply working_address_from in Hin. destruct Hin as [Hin Hb].
  apply in_combine_l in Hin. rewrite (H a Hin) in Hb. discriminate Hb.
Qed.

(** X9. When the scan reports every target address, the first loop has
    nothing to do: after the scan the constructor only opens drivers, at
    target addresses with offsets of the input; no enable line is driven
    high (every sensor stays in the reset the constructor put it in), and
    nothing is written. *)
Theorem nothing_is_sequenced_when_every_address_answers
    (hw : Hardware) (ce addrs : list Z) (offsets : option (list Z))
    (mode d : Z) (w w' : World hw) (r : result MultiSensor)
    (t : list event) (busy : list Z) :
  __init__ hw ce addrs offsets mode d w = (r, w', t) ->
  In (E_scan (Ok busy)) t ->
  (forall a, In a addrs -> contains a busy = true) ->
  exists offs tf,
    offsets = Some offs
    /\ t = prelude mode ce busy ++ tf
    /\ (forall e, In e tf ->
        exists a o res,
          In (a, o) (combine addrs offs) /\ e = E_VL6180X a o res).
Proof.
  intros H Hscan Hall. apply init_run in H.
  destruct H as [(_ & _ & ->) | (offs & -> & _ & Hrun)]; [contradiction |].
  destruct (run_trace_parts _ _ _ _ _ _ _ _ Hrun Hscan)
    as (rp & tp & tf & -> & Hl & Hf).
  rewrite (working_address_all_busy addrs ce busy Hall) in Hl.
  inversion Hl; subst. exists offs, tf. auto.
Qed.

Lemma nothing_is_sequenced_when_every_address_answers_witness :
  exists offs tf,
    Some [100; 100] = Some offs
    /\ prelude GPIO_BCM [10; 9] [0x30; 0x31]
       ++ [E_VL6180X 0x30 100 (Ok tt); E_VL6180X 0x31 100 (Ok tt)]
       = prelude GPIO_BCM [10; 9] [0x30; 0x31] ++ tf
    /\ (forall e, In e tf ->
        exists a o res,
          In (a, o) (combine [0x30; 0x31] offs) /\ e = E_VL6180X a o res).
Proof.
  apply (nothing_is_sequenced_when_every_address_answers
           (bench first_two_live) [10; 9] [0x30; 0x31] (Some [100; 100])
           GPIO_BCM 0x29 0%nat 7%nat
           (Ok (mkMultiSensor [mkVL6180X 0x30 100; mkVL6180X 0x31 100]))).
  - vm_compute. reflexivity.
  - simpl. auto 10.
  - simpl. intros a [<- | [<- | []]]; reflexivity.
Defined.

(** ** What the second loop returns *)

Lemma inst_trace_length l acc r t :
  inst_trace l acc r t ->
  forall res, r = Ok res -> length t = length l.
Proof.
  induction 1 as [acc | a o rest acc r t _ IH | a o rest acc r t _ IH
                 | a o rest acc e Hne]; intros res Hr; simpl.
  - reflexivity.
  - f_equal. eapply IH. eassumption.
  - f_equal. eapply IH. eassumption.
  - discriminate.
Qed.

(** X10. When the constructor returns, its second loop has opened one
    driver per input entry, in input order, at the entry's address with
    the entry's offset, and nothing else; the returned sensors are those
    whose driver opened, in that order.  So the position of a sensor in
    the collection is its rank among the drivers that opened, not its
    rank in the input; there are at most as many as input entries. *)
Theorem returned_sensors_are_the_drivers_that_opened
    (hw : Hardware) (ce addrs : list Z) (offsets : option (list Z))
    (mode d : Z) (w w' : World hw) (self : MultiSensor) (t : list event) :
  __init__ hw ce addrs offsets mode d w = (Ok self, w', t) ->
  exists offs busy tp tf,
    offsets = Some offs
    /\ t = prelude mode ce busy ++ tp ++ tf
    /\ loop_trace d (working_address addrs ce busy) (Ok tt) tp
    /\ opened tf = combine addrs offs
    /\ length tf = length ce
    /\ sensors self = map sensor_of (opened_ok tf)
    /\ (length (sensors self) <= length ce)%nat.
Proof.
  intros H. apply init_returns in H.
  destruct H as (offs & busy & tp & tf & -> & Hc & -> & Hl & Hi).
  apply config_ok_spec in Hc. destruct Hc as (Hlen1 & Hlen2 & _).
  assert (Hlen : length (combine addrs offs) = length ce)
    by (rewrite length_combine; lia).
  exists offs, busy, tp, tf.
  repeat split; trivial.
  - eapply inst_trace_opened; [eassumption | reflexivity].
  - rewrite <- Hlen. eapply inst_trace_length; [eassumption | reflexivity].
  - apply (inst_trace_result _ _ _ _ Hi _ eq_refl).
  - rewrite (inst_trace_result _ _ _ _ Hi _ eq_refl). simpl.
    rewrite length_map, <- Hlen.
    apply Subseq_length. eapply inst_trace_subseq. eassumption.
Qed.

Lemma returned_sensors_are_the_drivers_that_opened_witness :
  exists offs busy tp tf,
    Some [100; 100; 100] = Some offs
    /\ prelude GPIO_BCM [10; 9; 11] []
       ++ [E_output [10] HIGH (Ok tt); E_sleep; E_VL6180X 0x29 0 (Ok tt);
           E_write_8 0x29 SUBORDINATE_ADDR_REG 0x30 (Ok tt);
           E_output [9] HIGH (Ok tt); E_sleep; E_VL6180X 0x29 0 (Ok tt);
           E_write_8 0x29 SUBORDINATE_ADDR_REG 0x31 (Ok tt);
           E_output [11] HIGH (Ok tt); E_sleep; E_VL6180X 0x29 0 (Ok tt);
           E_write_8 0x29 SUBORDINATE_ADDR_REG 0x32 (Ok tt)]
       ++ [E_VL6180X 0x30 100 (Ok tt); E_VL6180X 0x31 100 (Raise OSError);
           E_VL6180X 0x32 100 (Ok tt)]
       = prelude GPIO_BCM [10; 9; 11] busy ++ tp ++ tf
    /\ loop_trace 0x29 (working_address [0x30; 0x31; 0x32] [10; 9; 11] busy)
         (Ok tt) tp
    /\ opened tf = combine [0x30; 0x31; 0x32] offs
    /\ length tf = length [10; 9; 11]
    /\ sensors (mkMultiSensor [mkVL6180X 0x30 100; mkVL6180X 0x32 100])
       = map sensor_of (opened_ok tf)
    /\ (length
          (sensors (mkMultiSensor [mkVL6180X 0x30 100; mkVL6180X 0x32 100]))
        <= length [10; 9; 11])%nat.
Proof.
  apply (returned_sensors_are_the_drivers_that_opened (bench one_missing)
           [10; 9; 11] [0x30; 0x31; 0x32] (Some [100; 100; 100])
           GPIO_BCM 0x29 0%nat 17%nat).
  vm_compute. reflexivity.
Defined.

(** ** A call in which nothing fails *)

Lemma raised_None_recovered (e : event) :
  raised e = None -> recovered e = true.
Proof.
  destruct e as [? [] | ? [] | ? ? [] | [] | [] | | ? ? [] | ? ? ? [] | | |
                 | []];
    simpl; intros H; try reflexivity; discriminate H.
Qed.

Lemma inst_trace_all_opened l acc r t :
  inst_trace l acc r t ->
  (forall e, In e t -> raised e = None) ->
  opened_ok t = opened t.
Proof.
  induction 1 as [acc | a o rest acc r t _ IH | a o rest acc r t _ IH
                 | a o rest acc e Hne]; simpl; intros Hok.
  - reflexivity.
  - f_equal. apply IH. auto.
  - specialize (Hok _ (or_introl eq_refl)). discriminate Hok.
  - specialize (Hok _ (or_introl eq_refl)). discriminate Hok.
Qed.

(** A call with well-formed arguments in which no external call raises. *)
Lemma init_nothing_fails
    (hw : Hardware) (ce addrs offs : list Z) (mode d : Z) (w w' : World hw)
    (r : result MultiSensor) (t : list event) :
  __init__ hw ce addrs (Some offs) mode d w = (r, w', t) ->
  length ce = length addrs ->
  length ce = length offs ->
  (forall a, In a addrs -> 0 <= a <= 127) ->
  mode = GPIO_BCM \/ mode = GPIO_BOARD ->
  0 <= d <= 127 ->
  (forall e, In e t -> raised e = None) ->
  r = Ok (mkMultiSensor (map sensor_of (combine addrs offs))).
Proof.
  intros H Hl1 Hl2 Haddrs Hmode Hd Hok.
  assert (Hc : config_ok ce addrs offs mode d = true)
    by (apply config_ok_spec; auto).
  apply init_accepted in H; [| exact Hc].
  assert (Hrec : forallb recovered t = true).
  { apply forallb_forall. intros e He. apply raised_None_recovered, Hok, He. }
  destruct H as [e | e | e | e | e | busy e tp Hl | busy tp r0 tf Hl Hi];
    try discriminate Hrec.
  - unfold prelude in Hrec. cbn [app] in Hrec.
    assert (Hr : Raise e = Ok tt).
    { eapply loop_trace_recovered; [eassumption |].
      cbn in Hrec. exact Hrec. }
    discriminate Hr.
  - rewrite !forallb_app in Hrec.
    apply andb_prop in Hrec. destruct Hrec as [_ Hrec].
    apply andb_prop in Hrec. destruct Hrec as [_ Hrec].
    destruct (inst_trace_recovered _ _ _ _ Hi Hrec) as (res & ->).
    simpl. rewrite (inst_trace_result _ _ _ _ Hi _ eq_refl). simpl.
    rewrite (inst_trace_all_opened _ _ _ _ Hi).
    + rewrite (inst_trace_opened _ _ _ _ Hi _ eq_refl). reflexivity.
    + intros e He. apply Hok. apply in_or_app. right.
      apply in_or_app. auto.
Qed.

(** X11. With well-formed arguments, when no external call raises, the
    constructor returns one sensor per input entry, in input order, each
    at the entry's target address with the entry's offset: position [i]
    of the collection is entry [i] of the input. *)
Theorem every_sensor_is_returned_when_nothing_fails
    (hw : Hardware) (ce addrs offs : list Z) (mode d : Z) (w w' : World hw)
    (r : result MultiSensor) (t : list event) :
  __init__ hw ce addrs (Some offs) mode d w = (r, w', t) ->
  length ce = length addrs ->
  length ce = length offs ->
  (forall a, In a addrs -> 0 <= a <= 127) ->
  mode = GPIO_BCM \/ mode = GPIO_BOARD ->
  0 <= d <= 127 ->
  (forall e, In e t -> raised e = None) ->
  r = Ok (mkMultiSensor (map sensor_of (combine addrs offs)))
  /\ length (map sensor_of (combine addrs offs)) = length ce.
Proof.
  intros H Hl1 Hl2 Haddrs Hmode Hd Hok. split.
  - eapply init_nothing_fails; eassumption.
  - rewrite length_map, length_combine. lia.
Qed.

Lemma every_sensor_is_returned_when_nothing_fails_witness :
  Ok (mkMultiSensor
        [mkVL6180X 0x30 100; mkVL6180X 0x31 100; mkVL6180X 0x32 100])
  = Ok (mkMultiSensor
          (map sensor_of (combine [0x30; 0x31; 0x32] [100; 100; 100])))
  /\ length (map sensor_of (combine [0x30; 0x31; 0x32] [100; 100; 100]))
     = length [10; 9; 11].
Proof.
  apply (every_sensor_is_returned_when_nothing_fails (bench all_fine)
           [10; 9; 11] [0x30; 0x31; 0x32] [100; 100; 100] GPIO_BCM 0x29
           0%nat 17%nat _ all_fine_log).
  - vm_compute. reflexivity.
  - reflexivity.
  - reflexivity.
  - simpl. intros a [<- | [<- | [<- | []]]]; lia.
  - left. reflexivity.
  - lia.
  - simpl. intros e He.
    repeat (destruct He as [<- | He]; [reflexivity |]). contradiction.
Defined.

(** ** Queries after a construction in which nothing failed *)

Lemma nth_error_combine {A B} (l1 : list A) (l2 : list B) k a b :
  nth_error l1 k = Some a -> nth_error l2 k = Some b ->
  nth_error (combine l1 l2) k = Some (a, b).
Proof.
  revert l1 l2. induction k as [| k IH]; intros [| x l1] [| y l2];
    simpl; try discriminate.
  - intros [= ->] [= ->]. reflexivity.
  - apply IH.
Qed.

(** X12. After a construction with well-formed arguments in which no
    external call raised, [get_range(k)] (and likewise [get_lux] and
    [get_range_status]) reads the sensor of input entry [k]: the driver
    bound to the [k]-th target address with the [k]-th offset. *)
Theorem query_after_construction_reads_entry_k
    (hw : Hardware) (ce addrs offs : list Z) (mode d : Z) (w w' : World hw)
    (self : MultiSensor) (t : list event) (k : nat) (a o gain : Z)
    (w2 : World hw) :
  __init__ hw ce addrs (Some offs) mode d w = (Ok self, w', t) ->
  length ce = length addrs ->
  length ce = length offs ->
  (forall a, In a addrs -> 0 <= a <= 127) ->
  mode = GPIO_BCM \/ mode = GPIO_BOARD ->
  0 <= d <= 127 ->
  (forall e, In e t -> raised e = None) ->
  nth_error addrs k = Some a ->
  nth_error offs k = Some o ->
  let s := mkVL6180X a o in
  get_range hw self (Z.of_nat k) w2
  = (let (r, w3) := hw_range hw s w2 in
     (match r with Ok v => Ok (Some v) | Raise _ => Ok None end,
      w3, [E_range s r]))
  /\ get_lux hw self (Z.of_nat k) gain w2
     = (let (r, w3) := hw_read_lux hw s gain w2 in
        (match r with Ok v => Ok (Some v) | Raise _ => Ok None end,
         w3, [E_read_lux s gain (is_ok r)]))
  /\ get_range_status hw self (Z.of_nat k) w2
     = (let (r, w3) := hw_range_status hw s w2 in
        (match r with Ok v => Ok (Some v) | Raise _ => Ok None end,
         w3, [E_range_status s r])).
Proof.
  intros H Hl1 Hl2 Haddrs Hmode Hd Hok Ha Ho s.
  assert (Hr := init_nothing_fails hw ce addrs offs mode d w w' _ t
                  H Hl1 Hl2 Haddrs Hmode Hd Hok).
  injection Hr as ->.
  assert (Hk : nth_error (map sensor_of (combine addrs offs)) k = Some s).
  { rewrite nth_error_map, (nth_error_combine addrs offs k a o Ha Ho).
    reflexivity. }
  assert (Hget : getitem (map sensor_of (combine addrs offs)) (Z.of_nat k)
                 = Ok s).
  { destruct (getitem_in_range (map sensor_of (combine addrs offs))
                (Z.of_nat k)) as (x & Hx & ->).
    - split; [lia |]. apply Nat2Z.inj_lt. apply nth_error_Some.
      rewrite Hk. discriminate.
    - rewrite Nat2Z.id, Hk in Hx. injection Hx as <-. reflexivity. }
  rewrite get_range_cases, get_lux_cases, get_range_status_cases.
  cbn [sensors]. rewrite Hget.
  destruct (hw_range hw s w2) as [[v1 | e1] w3];
    destruct (hw_read_lux hw s gain w2) as [[v2 | e2] w4];
    destruct (hw_range_status hw s w2) as [[v3 | e3] w5];
    repeat split.
Qed.

Lemma query_after_construction_reads_entry_k_witness :
  get_range (bench all_fine)
    (mkMultiSensor
       [mkVL6180X 0x30 100; mkVL6180X 0x31 100; mkVL6180X 0x32 100])
    (Z.of_nat 2) 17%nat
  = (Ok (Some 42), 18%nat, [E_range (mkVL6180X 0x32 100) (Ok 42)]).
Proof.
  refine (proj1 (query_after_construction_reads_entry_k (bench all_fine)
           [10; 9; 11] [0x30; 0x31; 0x32] [100; 100; 100] GPIO_BCM 0x29
           0%nat 17%nat _ all_fine_log 2%nat 0x32 100 0 17%nat
           _ _ _ _ _ _ _ _ _)).
  - vm_compute. reflexivity.
  - reflexivity.
  - reflexivity.
  - simpl. intros a [<- | [<- | [<- | []]]]; lia.
  - left. reflexivity.
  - lia.
  - simpl. intros e He.
    repeat (destruct He as [<- | He]; [reflexivity |]). contradiction.
  - reflexivity.
  - reflexivity.
Defined.

(** ** The writes of the address register *)

Lemma filter_none {A} (f : A -> bool) (l : list A) :
  (forall x, In x l -> f x = false) -> filter f l = [].
Proof.
  induction l as [| x l IH]; simpl; intros H; [reflexivity |].
  rewrite (H x) by auto. apply IH. auto.
Qed.

Lemma loop_event_writes_key d items a e :
  loop_event d items e ->
  is_address_write a e = true -> In a (map fst items).
Proof.
  intros [-> | [(r & ->) | (a' & c & r & Hin & [-> | [-> | ->]])]];
    try discriminate.
  cbn [is_address_write]. rewrite Z.eqb_refl. cbn [andb].
  intros E. apply Z.eqb_eq in E. subst a'.
  apply (in_map fst _ _ Hin).
Qed.

Lemma turn_trace_one_write d a0 c r t a :
  turn_trace d a0 c r t ->
  (length (filter (is_address_write a) t) <= 1)%nat.
Proof.
  destruct 1; cbn [filter is_address_write];
    try (destruct ((SUBORDINATE_ADDR_REG =? SUBORDINATE_ADDR_REG)
                   && (a0 =? a))); simpl; lia.
Qed.

Lemma loop_trace_one_write d items r t a :
  loop_trace d items r t ->
  NoDup (map fst items) ->
  (length (filter (is_address_write a) t) <= 1)%nat.
Proof.
  induction 1 as [| a0 c rest e t Ht | a0 c rest t1 r t2 Ht Hl IH];
    simpl; intros Hnd.
  - lia.
  - eapply turn_trace_one_write. eassumption.
  - inversion Hnd as [| ? ? Hnotin Hnd']; subst.
    rewrite filter_app, length_app.
    destruct (Z.eq_dec a a0) as [-> | Hne].
    + rewrite (filter_none (is_address_write a0) t2).
      * assert (H1 := turn_trace_one_write d a0 c _ t1 a0 Ht). simpl. lia.
      * intros ev Hev.
        destruct (is_address_write a0 ev) eqn:E; [exfalso | reflexivity].
        apply Hnotin.
        eapply loop_event_writes_key; [| exact E].
        eapply loop_trace_events; eassumption.
    + rewrite (filter_none (is_address_write a) t1).
      * simpl. apply IH, Hnd'.
      * intros ev Hev.
        destruct (is_address_write a ev) eqn:E; [exfalso | reflexivity].
        assert (Hk : In a (map fst [(a0, c)])).
        { eapply loop_event_writes_key; [| exact E].
          eapply turn_trace_events; eassumption. }
        simpl in Hk. destruct Hk as [Hk | []]. congruence.
Qed.

(** X13. Every register write the constructor issues goes to the device
    at the default address, to the address register 0x212, and writes a
    target address of the input that the scan did not report; and no
    address is written twice in a call, also when several entries share
    it. *)
Theorem each_address_is_written_at_most_once
    (hw : Hardware) (ce addrs : list Z) (offsets : option (list Z))
    (mode d : Z) (w w' : World hw) (r : result MultiSensor)
    (t : list event) (busy : list Z) :
  __init__ hw ce addrs offsets mode d w = (r, w', t) ->
  In (E_scan (Ok busy)) t ->
  (forall dev reg val res,
      In (E_write_8 dev reg val res) t ->
      dev = d /\ reg = SUBORDINATE_ADDR_REG
      /\ In val addrs /\ contains val busy = false)
  /\ (forall a, (length (filter (is_address_write a) t) <= 1)%nat).
Proof.
  intros H Hscan. apply init_run in H.
  destruct H as [(_ & _ & ->) | (offs & _ & _ & Hrun)]; [contradiction |].
  destruct (run_trace_parts _ _ _ _ _ _ _ _ Hrun Hscan)
    as (rp & tp & tf & -> & Hl & Hf).
  assert (Hp := loop_trace_events _ _ _ _ Hl).
  split.
  - intros dev reg val res Hin.
    apply in_app_or in Hin. destruct Hin as [Hin | Hin].
    { simpl in Hin.
      repeat (destruct Hin as [E | Hin]; [discriminate E |]).
      contradiction. }
    apply in_app_or in Hin. destruct Hin as [Hin | Hin].
    + destruct (Hp _ Hin)
        as [E | [(? & E) | (a' & c' & r0 & Hac & [E | [E | E]])]];
        try discriminate E.
      injection E as -> -> -> _.
      apply working_address_from in Hac. destruct Hac as [Hac Hb].
      apply in_combine_l in Hac. auto.
    + destruct (Hf _ Hin) as (? & ? & ? & _ & E). discriminate E.
  - intros a. rewrite !filter_app, !length_app.
    rewrite (filter_none (is_address_write a) (prelude mode ce busy)).
    + rewrite (filter_none (is_address_write a) tf).
      * assert (H1 := loop_trace_one_write d _ _ _ a Hl
                        (working_address_NoDup addrs ce busy)).
        simpl. lia.
      * intros ev Hev. destruct (Hf _ Hev) as (? & ? & ? & _ & ->).
        reflexivity.
    + simpl. intros ev Hev.
      repeat (destruct Hev as [<- | Hev]; [reflexivity |]). contradiction.
Qed.

Lemma each_address_is_written_at_most_once_witness :
  (forall dev reg val res,
      In (E_write_8 dev reg val res) shared_address_log ->
      dev = 0x29 /\ reg = SUBORDINATE_ADDR_REG
      /\ In val [0x30; 0x30; 0x32] /\ contains val [] = false)
  /\ (forall a,
      (length (filter (is_address_write a) shared_address_log) <= 1)%nat).
Proof.
  apply (each_address_is_written_at_most_once (bench all_fine)
           [10; 9; 11] [0x30; 0x30; 0x32] (Some [100; 101; 102])
           GPIO_BCM 0x29 0%nat 14%nat
           (Ok (mkMultiSensor
                  [mkVL6180X 0x30 100; mkVL6180X 0x30 101;
                   mkVL6180X 0x32 102]))).
  - vm_compute. reflexivity.
  - simpl. auto 10.
Defined.

(** ** The order in which the sensors are enabled *)

Lemma dict_set_keys_eq (k v : Z) (d : list (Z * Z)) :
  map fst (dict_set k v d)
  = if contains k (map fst d) then map fst d else map fst d ++ [k].
Proof.
  induction d as [| [k' v'] d IH]; simpl; [reflexivity |].
  unfold contains in *. simpl.
  destruct (Z.eqb_spec k k') as [-> | Hne]; simpl; [reflexivity |].
  rewrite IH. destruct (existsb (Z.eqb k) (map fst d)); reflexivity.
Qed.

Lemma first_occurrences_ext (l : list Z) : forall s1 s2,
  (forall x, contains x s1 = contains x s2) ->
  first_occurrences s1 l = first_occurrences s2 l.
Proof.
  induction l as [| x l IH]; simpl; intros s1 s2 H; [reflexivity |].
  rewrite (H x). destruct (contains x s2).
  - apply IH, H.
  - f_equal. apply IH. intros y. unfold contains in *. simpl.
    rewrite (H y). reflexivity.
Qed.

Lemma pending_fold_keys (busy : list Z) (l : list (Z * Z)) : forall d,
  map fst
    (fold_left
       (fun d ac => if contains (fst ac) busy then d
                    else dict_set (fst ac) (snd ac) d) l d)
  = map fst d
    ++ first_occurrences (map fst d)
         (filter (fun a => negb (contains a busy)) (map fst l)).
Proof.
  induction l as [| [a c] l IH]; simpl; intros d.
  - rewrite app_nil_r. reflexivity.
  - destruct (contains a busy); simpl; [apply IH |].
    rewrite IH, dict_set_keys_eq.
    destruct (contains a (map fst d)) eqn:Hin; [reflexivity |].
    rewrite <- app_assoc. simpl. do 2 f_equal.
    apply first_occurrences_ext. intros x. unfold contains.
    rewrite existsb_app. simpl. rewrite orb_false_r. apply orb_comm.
Qed.

Lemma map_fst_combine (l1 l2 : list Z) :
  length l1 = length l2 -> map fst (combine l1 l2) = l1.
Proof.
  revert l2. induction l1 as [| x l1 IH]; intros [| y l2]; simpl;
    try discriminate; [reflexivity |].
  intros [= H]. f_equal. apply IH, H.
Qed.

(** X14. The first loop takes the pending addresses (the target
    addresses the scan did not report) each once, in the order in which
    they first occur in the input list, also when addresses are repeated. *)
Theorem sensors_are_enabled_in_order_of_first_occurrence
    (addrs ce busy : list Z) :
  length addrs = length ce ->
  map fst (working_address addrs ce busy)
  = first_occurrences []
      (filter (fun a => negb (contains a busy)) addrs).
Proof.
  intros Hlen. unfold working_address.
  rewrite pending_fold_keys. simpl.
  rewrite (map_fst_combine addrs ce Hlen). reflexivity.
Qed.

Lemma sensors_are_enabled_in_order_of_first_occurrence_witness :
  map fst (working_address [0x31; 0x30; 0x31; 0x32] [10; 9; 11; 12] [0x32])
  = first_occurrences []
      (filter (fun a => negb (contains a [0x32])) [0x31; 0x30; 0x31; 0x32]).
Proof.
  apply sensors_are_enabled_in_order_of_first_occurrence. reflexivity.
Defined.

Lemma lines_raised_app (t1 t2 : list event) :
  lines_raised (t1 ++ t2) = lines_raised t1 ++ lines_raised t2.
Proof.
  induction t1 as [| e t1 IH]; simpl; [reflexivity |].
  destruct e as [| | ch [] [[] | ] | | | | | | | | |]; simpl; trivial.
  rewrite IH, app_assoc. reflexivity.
Qed.

Lemma loop_trace_lines_raised d items t :
  loop_trace d items (Ok tt) t -> lines_raised t = map snd items.
Proof.
  intros H. remember (Ok tt) as r eqn:Hr.
  induction H as [| a c rest e t Ht | a c rest t1 r t2 Ht Hl IH].
  - reflexivity.
  - discriminate.
  - rewrite lines_raised_app, (IH Hr). inversion Ht; reflexivity.
Qed.

Lemma inst_trace_lines_raised l acc r t :
  inst_trace l acc r t -> lines_raised t = [].
Proof. induction 1; simpl; trivial. Qed.

(** X15. When the constructor returns, the lines it has driven high are,
    in order, the enable lines of the items of the dict of pending
    entries, one line at a time and each once per item: with distinct
    target addresses, the lines of the input entries whose address the
    scan did not report, in input order. *)
Theorem lines_are_raised_in_the_order_of_the_pending_entries
    (hw : Hardware) (ce addrs : list Z) (offsets : option (list Z))
    (mode d : Z) (w w' : World hw) (self : MultiSensor) (t : list event)
    (busy : list Z) :
  __init__ hw ce addrs offsets mode d w = (Ok self, w', t) ->
  In (E_scan (Ok busy)) t ->
  lines_raised t = map snd (working_address addrs ce busy)
  /\ (NoDup addrs ->
      lines_raised t
      = map snd (filter (is_pending busy) (combine addrs ce))).
Proof.
  intros H Hscan. apply init_returns in H.
  destruct H as (offs & busy' & tp & tf & _ & _ & -> & Hl & Hi).
  assert (E : busy' = busy).
  { apply (scan_answer_unique mode ce d
             (working_address addrs ce busy') (combine addrs offs)
             busy busy' tp tf); trivial.
    - apply (loop_trace_events _ _ _ _ Hl).
    - apply (inst_trace_events _ _ _ _ Hi). }
  subst busy'.
  assert (Hlines : lines_raised (prelude mode ce busy ++ tp ++ tf)
                   = map snd (working_address addrs ce busy)).
  { rewrite !lines_raised_app, (loop_trace_lines_raised _ _ _ Hl),
      (inst_trace_lines_raised _ _ _ _ Hi), app_nil_r. reflexivity. }
  split; [exact Hlines |].
  intros Ha. rewrite Hlines, (working_address_distinct addrs ce busy Ha).
  reflexivity.
Qed.

Lemma lines_are_raised_in_the_order_of_the_pending_entries_witness :
  lines_raised all_fine_log
  = map snd (working_address [0x30; 0x31; 0x32] [10; 9; 11] [])
  /\ (NoDup [0x30; 0x31; 0x32] ->
      lines_raised all_fine_log
      = map snd (filter (is_pending [])
                   (combine [0x30; 0x31; 0x32] [10; 9; 11]))).
Proof.
  apply (lines_are_raised_in_the_order_of_the_pending_entries
           (bench all_fine) [10; 9; 11] [0x30; 0x31; 0x32]
           (Some [100; 100; 100]) GPIO_BCM 0x29 0%nat 17%nat
           (mkMultiSensor
              [mkVL6180X 0x30 100; mkVL6180X 0x31 100; mkVL6180X 0x32 100])).
  - vm_compute. reflexivity.
  - simpl. auto 10.
Defined.

(** ** The settle delay *)

Lemma settles_turn d a c r t1 t2 :
  turn_trace d a c r t1 -> settles d t2 = true ->
  settles d (t1 ++ t2) = true.
Proof.
  destruct 1; intros H2; cbn [app settles]; rewrite ?Z.eqb_refl; cbn;
    trivial.
Qed.

Lemma settles_loop d items r t1 t2 :
  loop_trace d items r t1 -> settles d t2 = true ->
  settles d (t1 ++ t2) = true.
Proof.
  induction 1 as [| a c rest e t Ht | a c rest ta r tb Ht Hl IH];
    intros H2.
  - exact H2.
  - eapply settles_turn; eassumption.
  - rewrite <- app_assoc. eapply settles_turn; [eassumption |].
    apply IH, H2.
Qed.

Lemma settles_inst d l acc r t :
  inst_trace l acc r t -> settles d t = true.
Proof. induction 1; simpl; trivial. Qed.

Lemma settles_spec d t : settles d t = true ->
  forall p c q,
    t = p ++ E_output [c] HIGH (Ok tt) :: q ->
    exists res q', q = E_sleep :: E_VL6180X d 0 res :: q'.
Proof.
  intros H p. revert t H. induction p as [| e p IH]; intros t H c q Ht.
  - subst t. cbn [app settles] in H.
    destruct q as [| [] q]; try discriminate H.
    destruct q as [| [] q]; try discriminate H.
    apply andb_prop in H. destruct H as [H _].
    apply andb_prop in H. destruct H as [Ha Ho].
    apply Z.eqb_eq in Ha, Ho. subst. eauto.
  - subst t.
    refine (IH (p ++ E_output [c] HIGH (Ok tt) :: q) _ c q eq_refl).
    cbn [app settles] in H.
    destruct e as [| | ch [] [[] | ] | | | | | | | | |]; trivial.
    destruct (p ++ E_output [c] HIGH (Ok tt) :: q) as [| [] l];
      try discriminate H.
    destruct l as [| [] l]; try discriminate H.
    apply andb_prop in H. apply H.
Qed.

(** X16. In every call of the constructor, a line that has been driven
    high is followed at once by the sleep, and the sleep by the opening
    of the temporary driver at the default address: the bus is never used
    on a sensor just taken out of reset without the delay. *)
Theorem the_settle_delay_is_never_skipped
    (hw : Hardware) (ce addrs : list Z) (offsets : option (list Z))
    (mode d : Z) (w w' : World hw) (r : result MultiSensor)
    (t p q : list event) (c : Z) :
  __init__ hw ce addrs offsets mode d w = (r, w', t) ->
  t = p ++ E_output [c] HIGH (Ok tt) :: q ->
  exists res q', q = E_sleep :: E_VL6180X d 0 res :: q'.
Proof.
  intros H Ht. refine (settles_spec d t _ p c q Ht).
  apply init_run in H.
  destruct H as [(_ & _ & ->) | (offs & _ & _ & Hrun)]; [reflexivity |].
  destruct Hrun as [e | e | e | e | e | busy e tp Hl | busy tp r tf Hl Hi];
    try reflexivity.
  - unfold prelude. cbn [app settles].
    rewrite <- (app_nil_r tp). eapply settles_loop; [eassumption |].
    reflexivity.
  - unfold prelude. cbn [app settles].
    eapply settles_loop; [eassumption |].
    eapply settles_inst. eassumption.
Qed.

Lemma the_settle_delay_is_never_skipped_witness :
  exists res q',
    [E_sleep; E_VL6180X 0x29 0 (Ok tt);
     E_write_8 0x29 SUBORDINATE_ADDR_REG 0x31 (Ok tt);
     E_VL6180X 0x30 100 (Ok tt); E_VL6180X 0x31 100 (Ok tt)]
    = E_sleep :: E_VL6180X 0x29 0 res :: q'.
Proof.
  apply (the_settle_delay_is_never_skipped
           (bench first_write_fails) [10; 9] [0x30; 0x31]
           (Some [100; 100]) GPIO_BCM 0x29 0%nat 13%nat
           (Ok (mkMultiSensor [mkVL6180X 0x30 100; mkVL6180X 0x31 100]))
           first_write_fails_log
           (prelude GPIO_BCM [10; 9] []
            ++ [E_output [10] HIGH (Ok tt); E_sleep;
                E_VL6180X 0x29 0 (Ok tt);
                E_write_8 0x29 SUBORDINATE_ADDR_REG 0x30 (Raise OSError)])
           _ 9).
  - vm_compute. reflexivity.
  - reflexivity.
Defined.
